(** * Balle: bouncing-ball trajectories and their synchronisation

    A shallow embedding of [ball_final.py]: the class [ball], whose
    constructor samples a piecewise parabolic trajectory, and the class
    [an_animation], whose constructor pads the trajectories of several balls
    to a common length.

    Numbers.  The program computes on binary64 floats.  The embedding computes
    on exact rationals ([Q], compared with [==]); rounding, overflow and NaN
    are not modelled, except that a division by [g = 0] (which makes numpy's
    [arange] raise) is kept as an error.  An angle enters the program only
    through [np.sin(theta)] and [np.cos(theta)], so it is represented by these
    two values.  Lengths and indices are Python integers ([Z]).

    A fact stated with [=] is an equality of the expressions the program
    evaluates and does not depend on the arithmetic; a sample count of
    [np.arange] and a fact stated with [==] are those of exact arithmetic. *)

From Stdlib Require Import ZArith QArith Qround List Bool Lia Lqa.
Import ListNotations.
Open Scope Z_scope.

(** ** Exceptions *)

(** The two exceptions the modelled code can raise. *)
Inductive exn : Set :=
| ValueError
| IndexError.

Inductive result (A : Type) : Type :=
| Ok (a : A)
| Raise (e : exn).

Arguments Ok {A} a.
Arguments Raise {A} e.

Definition bind {A B : Type} (m : result A) (k : A -> result B) : result B :=
  match m with
  | Ok a => k a
  | Raise e => Raise e
  end.

Notation "x <- m ;; k" := (bind m (fun x => k))
  (at level 61, m at next level, right associativity).

(** A loop that collects one result per element and stops at the first
    exception. *)
Fixpoint mapM {A B : Type} (f : A -> result B) (l : list A) : result (list B) :=
  match l with
  | [] => Ok []
  | a :: l' => b <- f a ;; bs <- mapM f l' ;; Ok (b :: bs)
  end.

(** ** Python built-ins *)

Module Py.

(** [len(a)] *)
Definition len {A : Type} (a : list A) : Z := Z.of_nat (length a).

(** [range(lo, hi)] *)
Definition range (lo hi : Z) : list Z :=
  map (fun i => lo + Z.of_nat i) (seq 0 (Z.to_nat (hi - lo))).

(** [max(l)]: raises ValueError on an empty sequence. *)
Definition max (l : list Z) : result Z :=
  match l with
  | [] => Raise ValueError
  | x :: xs => Ok (fold_left Z.max xs x)
  end.

(** [a[i]]: a negative index counts from the end; out of range raises
    IndexError. *)
Definition getitem {A : Type} (a : list A) (i : Z) : result A :=
  let j := if i <? 0 then i + len a else i in
  if (j <? 0) || (len a <=? j) then Raise IndexError
  else match nth_error a (Z.to_nat j) with
       | Some v => Ok v
       | None => Raise IndexError
       end.

End Py.

(** ** The numpy functions the program calls *)

Module Np.

Local Open Scope Q_scope.

Definition of_nat (i : nat) : Q := inject_Z (Z.of_nat i).

(** [np.arange(start, stop, step)]: [ceil((stop - start) / step)] samples
    [start + i * step]; none when that count is not positive.  A zero step
    makes the length computation fail.  The quotient is the exact one here:
    numpy rounds it to binary64 before taking the ceiling, so its count can
    differ by one where the exact quotient is an integer or next to one. *)
Definition arange (start stop step : Q) : result (list Q) :=
  if Qeq_bool step 0 then Raise ValueError
  else
    let n := Qceiling ((stop - start) / step) in
    Ok (map (fun i => start + of_nat i * step) (seq 0 (Z.to_nat n))).

(** [np.linspace(start, stop, num)] with the default [endpoint=True]:
    [num - 1] steps of [(stop - start) / (num - 1)], the last sample being
    set to [stop] itself. *)
Definition linspace (start stop : Q) (num : nat) : list Q :=
  match num with
  | O => []
  | S O => [start]
  | S div =>
      let step := (stop - start) / of_nat div in
      map (fun i => of_nat i * step + start) (seq 0 div) ++ [stop]
  end.

(** [np.arange(start, stop)] on integers: [start], [start + 1], ... below
    [stop]. *)
Definition arange_int (start stop : Z) : list Z :=
  map (fun i => (start + Z.of_nat i)%Z) (seq 0 (Z.to_nat (stop - start))).

(** [np.full(n, v)]: a negative dimension raises ValueError. *)
Definition full {A : Type} (n : Z) (v : A) : result (list A) :=
  if (n <? 0)%Z then Raise ValueError else Ok (repeat v (Z.to_nat n)).

(** [np.concatenate((a, b))] *)
Definition concatenate {A : Type} (a b : list A) : list A := a ++ b.

End Np.

(** ** Class [ball] *)

(** An angle, given by the values [np.sin] and [np.cos] take on it. *)
Record angle : Set := Angle { np_sin : Q; np_cos : Q }.

Module Ball.

Local Open Scope Q_scope.

(** The attributes of a [ball] object.  [x_tot], [y_tot] and [vr] are created
    by [random_generation]; until then they hold [[]], [[]] and [0]. *)
Record ball : Set := Build {
  g : Q;
  n_rebounds : Z;
  x0 : Q;
  y0 : Q;
  v0 : Q;
  theta : angle;
  r : Q;
  t0 : Q;
  tmax : Q;
  t : list Q;
  x_tot : list Q;
  y_tot : list Q;
  vr : Q
}.

(** Lines 77-80: the arc before the first rebound. *)
Definition first_arc (self : ball) : ball :=
  let x_tot' :=
    map (fun ti => v0 self * np_cos (theta self) * (ti - t0 self) + x0 self)
        (t self) in
  let y_tot' :=
    map (fun ti => - g self / 2 * (ti - t0 self) ^ 2
                   + v0 self * np_sin (theta self) * (ti - t0 self) + y0 self)
        (t self) in
  Build (g self) (n_rebounds self) (x0 self) (y0 self) (v0 self) (theta self)
        (r self) (t0 self) (tmax self) (t self) x_tot' y_tot' (v0 self).

(** Lines 84-96: the body of the loop, for the rebound of index [ii].  The
    OverflowError of a float power that leaves the binary64 range is not
    modelled. *)
Definition rebound (self : ball) (ii : Z) : ball :=
  let x0' := vr self * np_cos (theta self) * (tmax self - t0 self) + x0 self in
  let vr' := r self ^ ii * v0 self in
  let t0' := tmax self in
  let tmax' := 2 * vr' * np_sin (theta self) / g self + t0' in
  let t' := Np.linspace t0' tmax' 100 in
  let x := map (fun ti => vr' * np_cos (theta self) * (ti - t0') + x0') t' in
  let y := map (fun ti => - g self / 2 * (ti - t0') ^ 2
                          + vr' * np_sin (theta self) * (ti - t0') + y0 self)
               t' in
  Build (g self) (n_rebounds self) x0' (y0 self) (v0 self) (theta self)
        (r self) t0' tmax' t'
        (Np.concatenate (x_tot self) x) (Np.concatenate (y_tot self) y) vr'.

(** The loop of line 83, run over the indices [iis]. *)
Definition rebounds (self : ball) (iis : list Z) : ball :=
  fold_left rebound iis self.

(** [ball.random_generation] *)
Definition random_generation (self : ball) : ball :=
  rebounds (first_arc self) (Py.range 1 (n_rebounds self)).

(** The object as lines 55-66 leave it, given the time vector [t]. *)
Definition launched (g : Q) (n_rebounds : Z) (x0 y0 v0 : Q) (theta : angle)
    (r t0 : Q) (t : list Q) : ball :=
  Build g n_rebounds x0 y0 v0 theta r t0 (2 * v0 * np_sin theta / g + t0) t
        [] [] 0.

(** [ball.__init__].  With [g = 0] the float quotient of line 64 is infinite
    or NaN, so are [tmax] and [dt], and [np.arange] raises because it cannot
    compute a length.  [tmax] and the step are the exact values here: where
    rounding decides whether the step is 0 or how many samples the first arc
    has, the program can differ. *)
Definition init (g : Q) (n_rebounds : Z) (x0 y0 v0 : Q) (theta : angle)
    (r t0 : Q) : result ball :=
  if Qeq_bool g 0 then Raise ValueError
  else
    let tmax := 2 * v0 * np_sin theta / g + t0 in
    let dt := tmax / 100 in
    t <- Np.arange t0 tmax dt ;;
    Ok (random_generation (launched g n_rebounds x0 y0 v0 theta r t0 t)).

(** The state of the object after the first arc and [k] turns of the loop. *)
Definition after (k : nat) (self : ball) : ball :=
  rebounds (first_arc self) (Py.range 1 (1 + Z.of_nat k)).

(** The parabola of lines 78 and 93 for the current arc of [self]: the height
    above [y0] at the time [tau] after the arc's start, and its apex. *)
Definition height (self : ball) (tau : Q) : Q :=
  - g self / 2 * tau ^ 2 + vr self * np_sin (theta self) * tau.

Definition apex_time (self : ball) : Q :=
  vr self * np_sin (theta self) / g self.

Definition apex (self : ball) : Q := height self (apex_time self).

(** The samples of the arc [k] in a sequence of samples whose first arc has
    [first] of them: the arc 0 is the first arc, and every later arc has 100
    samples. *)
Definition arc_of (first k : nat) (samples : list Q) : list Q :=
  match k with
  | O => firstn first samples
  | S j => firstn 100 (skipn (first + 100 * j) samples)
  end.

(** [ball.the_animation], as far as it reads the trajectory: the marker is
    first drawn at the sample 0 (line 112), the frames handed to the
    animation are the indices of [x_tot] (line 127), and the callback
    [animate] (lines 114-124) moves the marker to the sample [tot]. *)
Definition first_position (self : ball) : result (Q * Q) :=
  x <- Py.getitem (x_tot self) 0 ;;
  y <- Py.getitem (y_tot self) 0 ;;
  Ok (x, y).

Definition frames (self : ball) : list Z :=
  Np.arange_int 0 (Py.len (x_tot self)).

Definition animate (self : ball) (tot : Z) : result (Q * Q) :=
  x <- Py.getitem (x_tot self) tot ;;
  y <- Py.getitem (y_tot self) tot ;;
  Ok (x, y).

End Ball.

(** ** Class [an_animation] *)

(** Python objects are shared by reference.  A [loc] names a [ball] object and
    a [heap] holds the current attributes of every object; the list handed to
    [an_animation] is a list of references. *)
Definition loc : Set := nat.

Definition heap : Set := loc -> Ball.ball.

Definition store (l : loc) (b : Ball.ball) (h : heap) : heap :=
  fun l' => if Nat.eqb l' l then b else h l'.

Module Animation.

Import Ball.

Record an_animation : Set := Build { balls : list loc; max_len : Z }.

(** Lines 153-156, on the object [b]: the two padding arrays are built, then
    [x_tot] and [y_tot] are rebound to the padded arrays. *)
Definition pad (max_len : Z) (b : ball) : result ball :=
  x_last <- Py.getitem (x_tot b) (-1) ;;
  zero_arrayx <- Np.full (max_len - Py.len (x_tot b)) x_last ;;
  y_last <- Py.getitem (y_tot b) (-1) ;;
  zero_arrayy <- Np.full (max_len - Py.len (x_tot b)) y_last ;;
  Ok (Ball.Build (g b) (n_rebounds b) (x0 b) (y0 b) (v0 b) (theta b) (r b)
        (t0 b) (tmax b) (t b)
        (Np.concatenate (x_tot b) zero_arrayx)
        (Np.concatenate (y_tot b) zero_arrayy) (vr b)).

(** The loop of line 151: [ii] runs over the indices of [balls], so
    [balls[ii]] runs over the references [ls]; each turn updates the heap. *)
Fixpoint reset_loop (max_len : Z) (ls : list loc) (h : heap) : result heap :=
  match ls with
  | [] => Ok h
  | l :: ls' =>
      b' <- pad max_len (h l) ;;
      reset_loop max_len ls' (store l b' h)
  end.

(** [an_animation.reset_time] *)
Definition reset_time (self : an_animation) (h : heap) : result heap :=
  reset_loop (max_len self) (balls self) h.

(** [an_animation.__init__] *)
Definition init (balls : list loc) (h : heap) : result (an_animation * heap) :=
  max_len <- Py.max (map (fun l => Py.len (x_tot (h l))) balls) ;;
  let self := Build balls max_len in
  h' <- reset_time self h ;;
  Ok (self, h').

(** The largest length among the objects [bs] of the heap [h]. *)
Definition longest (bs : list loc) (h : heap) : Z :=
  Z.of_nat (list_max (map (fun l => length (x_tot (h l))) bs)).

(** The objects on which [pad] raises nothing. *)
Definition paddable (max_len : Z) (b : ball) : Prop :=
  x_tot b <> [] /\ y_tot b <> [] /\ Py.len (x_tot b) <= max_len.

(** [pad] in closed form: what a successful call returns. *)
Definition padded (max_len : Z) (b : ball) : ball :=
  let n := Z.to_nat (max_len - Py.len (x_tot b)) in
  Ball.Build (g b) (n_rebounds b) (x0 b) (y0 b) (v0 b) (theta b) (r b)
    (t0 b) (tmax b) (t b)
    (x_tot b ++ repeat (last (x_tot b) 0%Q) n)
    (y_tot b ++ repeat (last (y_tot b) 0%Q) n) (vr b).

(** [an_animation.launch_animation], as far as it reads the trajectories:
    one marker per ball is first drawn at the sample 0 (lines 171-174), the
    frames are the integers below [max_len] (line 190), and the callback
    [animate] (lines 176-187) moves every marker to the sample [tot] of its
    ball. *)
Definition first_positions (self : an_animation) (h : heap) :
    result (list (Q * Q)) :=
  mapM (fun l => Ball.first_position (h l)) (balls self).

Definition frames (self : an_animation) : list Z :=
  Np.arange_int 0 (max_len self).

Definition animate (self : an_animation) (h : heap) (tot : Z) :
    result (list (Q * Q)) :=
  mapM (fun l => Ball.animate (h l) tot) (balls self).

End Animation.

(** ** Sample launches *)

(** The angle with sine 4/5 and cosine 3/5 (about 53 degrees) and the right
    angle. *)
Definition theta_345 : angle := Angle (4 # 5) (3 # 5).

Definition theta_up : angle := Angle 1 0.

(** What [ball(1, 1, 0, 0, 1, pi/2, 0.8, -5)] builds: the launch time lies
    more than one flight before 0, [tmax] and the step are negative and the
    time vector is empty. *)
Definition no_samples : Ball.ball :=
  Ball.Build 1 1 0 0 1 theta_up (4 # 5) (-5) (2 * 1 * 1 / 1 + -5) [] [] [] 1.

(** A heap holding the objects [bs] at the references 0, 1, ... *)
Definition heap_of (bs : list Ball.ball) : heap :=
  fun l => nth l bs no_samples.

(** ** The example driver *)


(** A small object with the given samples. *)
Definition with_samples (xs ys : list Q) : Ball.ball :=
  Ball.Build 1 1 0 0 1 theta_up (4 # 5) 0 2 [] xs ys 1.

(** Two objects, of two samples and of one; an object with samples and one
    without. *)
Definition long_and_short : heap :=
  heap_of [with_samples [1; 2]%Q [3; 4]%Q; with_samples [5]%Q [6]%Q].

Definition sampled_and_not : heap :=
  heap_of [with_samples [1]%Q [2]%Q; no_samples].

(** * Facts about the built-ins *)

Section Builtins.

Lemma range_length (lo hi : Z) : length (Py.range lo hi) = Z.to_nat (hi - lo).
Proof. unfold Py.range. now rewrite length_map, length_seq. Qed.

Lemma range_snoc (lo : Z) (k : nat) :
  Py.range lo (lo + Z.of_nat (S k)) =
  Py.range lo (lo + Z.of_nat k) ++ [lo + Z.of_nat k].
Proof.
  unfold Py.range.
  replace (Z.to_nat (lo + Z.of_nat (S k) - lo)) with (S k) by lia.
  replace (Z.to_nat (lo + Z.of_nat k - lo)) with k by lia.
  now rewrite seq_S, map_app.
Qed.

Lemma linspace_length (start stop : Q) (num : nat) :
  length (Np.linspace start stop num) = num.
Proof.
  destruct num as [|[|div]]; try reflexivity.
  unfold Np.linspace.
  rewrite length_app, length_map, length_seq. simpl. lia.
Qed.

Lemma arange_length (start stop step : Q) (a : list Q) :
  Np.arange start stop step = Ok a ->
  length a = Z.to_nat (Qceiling ((stop - start) / step)).
Proof.
  unfold Np.arange. destruct (Qeq_bool step 0); [discriminate|].
  intros [= <-]. now rewrite length_map, length_seq.
Qed.

Lemma getitem_snoc {A : Type} (a : list A) (z : A) :
  Py.getitem (a ++ [z]) (-1) = Ok z.
Proof.
  unfold Py.getitem, Py.len. change (-1 <? 0) with true. cbv iota.
  rewrite length_app. simpl length.
  replace (-1 + Z.of_nat (length a + 1)) with (Z.of_nat (length a)) by lia.
  replace (_ || _) with false.
  - now rewrite Nat2Z.id, nth_error_app2, Nat.sub_diag by lia.
  - symmetry. apply orb_false_intro; [apply Z.ltb_ge|apply Z.leb_gt]; lia.
Qed.

Lemma getitem_nonempty {A : Type} (a : list A) (d : A) :
  a <> [] -> Py.getitem a (-1) = Ok (last a d).
Proof.
  intros H. destruct (exists_last H) as (a' & z & ->).
  now rewrite getitem_snoc, last_last.
Qed.

Lemma getitem_empty {A : Type} (i : Z) :
  Py.getitem (@nil A) i = Raise IndexError.
Proof.
  unfold Py.getitem, Py.len. simpl length. simpl Z.of_nat.
  replace (_ || _) with true; [reflexivity|].
  symmetry. apply orb_true_iff.
  destruct (Z.ltb_spec i 0); [left; apply Z.ltb_lt|right; apply Z.leb_le]; lia.
Qed.

Lemma max_list_max (l : list nat) :
  l <> [] -> Py.max (map Z.of_nat l) = Ok (Z.of_nat (list_max l)).
Proof.
  destruct l as [|x xs]; [congruence|]. intros _. simpl Py.max. f_equal.
  change (list_max (x :: xs)) with (Nat.max x (list_max xs)).
  revert x. induction xs as [|y ys IH]; intros x; simpl.
  - now rewrite Nat.max_0_r.
  - rewrite <- Nat2Z.inj_max, IH. f_equal.
    change (list_max (y :: ys)) with (Nat.max y (list_max ys)).
    now rewrite Nat.max_assoc.
Qed.

End Builtins.

(** * Facts about [ball] *)

Section Generator.

Import Ball.
Local Open Scope Q_scope.

(** What one turn of the loop leaves alone. *)
Lemma rebounds_frame (iis : list Z) (self : ball) :
  g (rebounds self iis) = g self /\
  n_rebounds (rebounds self iis) = n_rebounds self /\
  y0 (rebounds self iis) = y0 self /\
  v0 (rebounds self iis) = v0 self /\
  theta (rebounds self iis) = theta self /\
  r (rebounds self iis) = r self.
Proof.
  unfold rebounds. revert self.
  induction iis as [|ii iis IH]; intros self; simpl; [now repeat split|].
  destruct (IH (rebound self ii)) as (-> & -> & -> & -> & -> & ->).
  now repeat split.
Qed.

Lemma rebound_x_tot (self : ball) (ii : Z) :
  exists x, length x = 100%nat /\ x_tot (rebound self ii) = x_tot self ++ x.
Proof.
  eexists. split; [|reflexivity].
  now rewrite length_map, linspace_length.
Qed.

Lemma rebound_y_tot (self : ball) (ii : Z) :
  exists y, length y = 100%nat /\ y_tot (rebound self ii) = y_tot self ++ y.
Proof.
  eexists. split; [|reflexivity].
  now rewrite length_map, linspace_length.
Qed.

Lemma rebounds_length (iis : list Z) (self : ball) :
  length (x_tot (rebounds self iis)) =
    (length (x_tot self) + 100 * length iis)%nat /\
  length (y_tot (rebounds self iis)) =
    (length (y_tot self) + 100 * length iis)%nat.
Proof.
  unfold rebounds. revert self.
  induction iis as [|ii iis IH]; intros self; [simpl; lia|].
  cbn [fold_left]. destruct (IH (rebound self ii)) as [-> ->].
  destruct (rebound_x_tot self ii) as (x & Hx & ->).
  destruct (rebound_y_tot self ii) as (y & Hy & ->).
  rewrite !length_app, Hx, Hy. cbn [length]. lia.
Qed.

Lemma first_arc_length (self : ball) :
  length (x_tot (first_arc self)) = length (t self) /\
  length (y_tot (first_arc self)) = length (t self).
Proof. unfold first_arc. simpl. now rewrite !length_map. Qed.

(** The sample count of a trajectory: the length of the first time vector
    and 100 more for each turn of the loop. *)
Lemma random_generation_length (self : ball) :
  length (x_tot (random_generation self)) =
    (length (t self) + 100 * Z.to_nat (n_rebounds self - 1))%nat /\
  length (y_tot (random_generation self)) =
    (length (t self) + 100 * Z.to_nat (n_rebounds self - 1))%nat.
Proof.
  unfold random_generation.
  destruct (rebounds_length (Py.range 1 (n_rebounds self)) (first_arc self))
    as [-> ->].
  destruct (first_arc_length self) as [-> ->].
  now rewrite range_length.
Qed.

Lemma after_S (k : nat) (self : ball) :
  after (S k) self = rebound (after k self) (1 + Z.of_nat k).
Proof.
  unfold after, rebounds. rewrite range_snoc, fold_left_app. reflexivity.
Qed.

Lemma random_generation_after (self : ball) :
  random_generation self = after (Z.to_nat (n_rebounds self - 1)) self.
Proof.
  unfold random_generation, after, Py.range. do 3 f_equal. lia.
Qed.

(** The object a successful construction returns is the state after
    [n_rebounds - 1] turns of the loop. *)
Lemma init_after (g : Q) (n : Z) (x0 y0 v0 : Q) (theta : angle) (r t0 : Q)
    (b : ball) :
  Ball.init g n x0 y0 v0 theta r t0 = Ok b ->
  exists t,
    Np.arange t0 (2 * v0 * np_sin theta / g + t0)
              ((2 * v0 * np_sin theta / g + t0) / 100) = Ok t /\
    b = after (Z.to_nat (n - 1)) (launched g n x0 y0 v0 theta r t0 t).
Proof.
  unfold Ball.init. destruct (Qeq_bool g 0); [discriminate|]. cbv zeta.
  destruct (Np.arange _ _ _) as [a|e]; [|discriminate].
  cbn [bind]. intros [= <-]. exists a. split; [reflexivity|].
  apply random_generation_after.
Qed.

Lemma after_frame (k : nat) (self : ball) :
  g (after k self) = g self /\
  n_rebounds (after k self) = n_rebounds self /\
  y0 (after k self) = y0 self /\
  v0 (after k self) = v0 self /\
  theta (after k self) = theta self /\
  r (after k self) = r self.
Proof. unfold after. apply (rebounds_frame _ (first_arc self)). Qed.

(** ** Sample counts *)

(** C1 (the code departs from the claim).  The launch
    [ball(9.81, 6, 0, 0, 2.5, theta, 0.8, 0.5)] with [sin theta = 4/5], one of
    the launches the example driver can draw, yields 545 samples, not
    [100 * 6]: the step of line 65 is [tmax / 100], not [(tmax - t0) / 100],
    so the first arc has 45 samples. *)
Theorem driver_launch_sample_count :
  exists b,
    Ball.init (981 # 100) 6 0 0 (5 # 2) theta_345 (4 # 5) (1 # 2) = Ok b /\
    length (x_tot b) = 545%nat /\ length (y_tot b) = 545%nat.
Proof.
  destruct (Ball.init (981 # 100) 6 0 0 (5 # 2) theta_345 (4 # 5) (1 # 2))
    as [b|e] eqn:E; [|discriminate E].
  exists b. split; [reflexivity|].
  apply init_after in E as (a & A & ->).
  pose proof (random_generation_after
                (launched (981 # 100) 6 0 0 (5 # 2) theta_345 (4 # 5) (1 # 2) a))
    as R.
  cbn [n_rebounds launched] in R. rewrite <- R.
  destruct (random_generation_length
              (launched (981 # 100) 6 0 0 (5 # 2) theta_345 (4 # 5) (1 # 2) a))
    as [-> ->].
  cbn [t n_rebounds launched]. rewrite (arange_length _ _ _ _ A).
  split; reflexivity.
Qed.

(** A launch whose landing time is 0 is refused: the step of line 65 is 0
    and [np.arange] raises. *)
Lemma init_raises_at_zero_landing :
  Ball.init 1 1 0 0 1 theta_up (4 # 5) (-2) = Raise ValueError.
Proof. reflexivity. Qed.

(** ** Continuity at the rebounds *)

(** C3 (the code departs from the claim).  For
    [ball(4, 2, 0, 0, 5, theta, 0.8, 0)] with [sin theta = 4/5] and
    [cos theta = 3/5] the first arc lasts 2 s and lands at [(6, 0)].  Its 100
    samples stop one step short, at [(5.94, 0.0792)], while the second arc
    starts at [(6, 0)]: [np.arange] leaves the end point out where
    [np.linspace] keeps it. *)
Theorem first_boundary_gap :
  exists b,
    Ball.init 4 2 0 0 5 theta_345 (4 # 5) 0 = Ok b /\
    length (x_tot b) = 200%nat /\
    nth 99 (x_tot b) 0 == 594 # 100 /\ nth 100 (x_tot b) 0 == 6 /\
    nth 99 (y_tot b) 0 == 792 # 10000 /\ nth 100 (y_tot b) 0 == 0.
Proof. eexists. split; [vm_compute; reflexivity|]. now vm_compute. Qed.

Lemma linspace_100 (start stop : Q) :
  Np.linspace start stop 100 =
  map (fun i => Np.of_nat i * ((stop - start) / Np.of_nat 99) + start)
      (seq 0 99) ++ [stop].
Proof. reflexivity. Qed.

Lemma rebound_last (self : ball) (ii : Z) (d : Q) :
  let b := rebound self ii in
  last (x_tot b) d =
    vr b * np_cos (theta b) * (tmax b - t0 b) + x0 b /\
  last (y_tot b) d =
    - g b / 2 * (tmax b - t0 b) ^ 2
    + vr b * np_sin (theta b) * (tmax b - t0 b) + y0 b.
Proof.
  unfold rebound.
  cbn [x_tot y_tot vr theta tmax t0 x0 y0 g]. unfold Np.concatenate.
  rewrite linspace_100, !map_app. cbn [map].
  rewrite !app_assoc, !last_last. now split.
Qed.

(** ** The state of a rebound *)

Lemma after_0 (self : ball) : after 0 self = first_arc self.
Proof. reflexivity. Qed.

Lemma after_length (k : nat) (self : ball) :
  length (x_tot (after k self)) = (length (t self) + 100 * k)%nat /\
  length (y_tot (after k self)) = (length (t self) + 100 * k)%nat.
Proof.
  unfold after.
  destruct (rebounds_length (Py.range 1 (1 + Z.of_nat k)) (first_arc self))
    as [-> ->].
  destruct (first_arc_length self) as [-> ->].
  rewrite range_length. split; f_equal; lia.
Qed.

(** What a turn of the loop has appended stays where it is. *)
Lemma after_prefix (j m : nat) (self : ball) :
  (j <= m)%nat ->
  exists x y,
    x_tot (after m self) = x_tot (after j self) ++ x /\
    y_tot (after m self) = y_tot (after j self) ++ y.
Proof.
  induction m as [|m IH]; intros H.
  - replace j with 0%nat by lia. exists [], []. now rewrite !app_nil_r.
  - destruct (Nat.eq_dec j (S m)) as [->|N].
    + exists [], []. now rewrite !app_nil_r.
    + destruct IH as (x & y & Ex & Ey); [lia|].
      rewrite after_S.
      destruct (rebound_x_tot (after m self) (1 + Z.of_nat m)) as (x' & _ & ->).
      destruct (rebound_y_tot (after m self) (1 + Z.of_nat m)) as (y' & _ & ->).
      rewrite Ex, Ey. exists (x ++ x'), (y ++ y'). now rewrite !app_assoc.
Qed.

Lemma arc_of_middle (first j : nat) (before arc rest : list Q) :
  length before = (first + 100 * j)%nat -> length arc = 100%nat ->
  arc_of first (S j) ((before ++ arc) ++ rest) = arc.
Proof.
  intros Hb Ha. unfold arc_of. rewrite <- app_assoc, <- Hb.
  rewrite skipn_app, skipn_all, Nat.sub_diag. cbn [skipn app].
  rewrite <- Ha at 1. rewrite firstn_app, firstn_all, Nat.sub_diag.
  cbn [firstn]. apply app_nil_r.
Qed.

(** The arc [k] of the trajectory is, at any later time, what the turn [k]
    of the loop computed from the state it reached. *)
Lemma after_arc (k m : nat) (self : ball) :
  (1 <= k <= m)%nat ->
  let cur := after k self in
  arc_of (length (t self)) k (x_tot (after m self)) =
    map (fun ti => vr cur * np_cos (theta self) * (ti - t0 cur) + x0 cur)
        (Np.linspace (t0 cur) (tmax cur) 100) /\
  arc_of (length (t self)) k (y_tot (after m self)) =
    map (fun ti => - g self / 2 * (ti - t0 cur) ^ 2
                   + vr cur * np_sin (theta self) * (ti - t0 cur) + y0 self)
        (Np.linspace (t0 cur) (tmax cur) 100).
Proof.
  intros H cur. destruct k as [|j]; [lia|].
  destruct (after_prefix (S j) m self) as (x & y & -> & ->); [lia|].
  unfold cur. rewrite after_S.
  destruct (after_frame j self) as (Eg & _ & Ey & _ & Eth & _).
  destruct (after_length j self) as [Lx Ly].
  unfold rebound. cbn [x_tot y_tot vr t0 tmax x0]. unfold Np.concatenate.
  rewrite Eg, Ey, Eth.
  split; apply arc_of_middle; try assumption;
    now rewrite length_map, linspace_length.
Qed.

Lemma arc_of_first (first : nat) (arc rest : list Q) :
  length arc = first -> arc_of first 0 (arc ++ rest) = arc.
Proof.
  intros <-. unfold arc_of.
  rewrite firstn_app, firstn_all, Nat.sub_diag. cbn [firstn].
  apply app_nil_r.
Qed.

Lemma after_first_arc (m : nat) (self : ball) :
  arc_of (length (t self)) 0 (x_tot (after m self)) = x_tot (first_arc self) /\
  arc_of (length (t self)) 0 (y_tot (after m self)) = y_tot (first_arc self).
Proof.
  destruct (after_prefix 0 m self) as (x & y & -> & ->); [lia|].
  rewrite after_0. destruct (first_arc_length self) as [Lx Ly].
  split; apply arc_of_first; assumption.
Qed.

(** The end of an arc as line 88 sets it, whatever the turn. *)
Lemma after_tmax (k : nat) (self : ball) :
  tmax self = 2 * v0 self * np_sin (theta self) / g self + t0 self ->
  tmax (after k self) =
  2 * vr (after k self) * np_sin (theta self) / g self + t0 (after k self).
Proof.
  intros H. destruct k as [|k].
  - rewrite after_0. exact H.
  - rewrite after_S. destruct (after_frame k self) as (Eg & _ & _ & _ & Eth & _).
    unfold rebound. cbn [tmax vr t0]. now rewrite Eg, Eth.
Qed.

(** C5.  The object the constructor returns is the state after
    [n_rebounds - 1] turns of the loop.  In the turn [k] of the loop
    (1 <= k < n_rebounds) the speed becomes [r^k * v0], taken from the launch
    speed and not from the previous speed; the arc starts when the previous
    one ended and ends [2 * vr * sin(theta) / g] later, as line 88 adds it;
    the horizontal origin moves by the previous speed times [cos(theta)]
    times the time the previous arc took; and the arc [k] of the trajectory
    returned holds the samples computed from these. *)
Theorem rebound_speed_duration_origin (g : Q) (n : Z) (x0 y0 v0 : Q)
    (theta : angle) (r t0 : Q) (b : ball) (k : nat) :
  Ball.init g n x0 y0 v0 theta r t0 = Ok b ->
  (1 <= k)%nat -> (Z.of_nat k < n)%Z ->
  exists t,
    Np.arange t0 (2 * v0 * np_sin theta / g + t0)
              ((2 * v0 * np_sin theta / g + t0) / 100) = Ok t /\
    let self := launched g n x0 y0 v0 theta r t0 t in
    let prev := after (k - 1) self in
    let cur := after k self in
    b = after (Z.to_nat (n - 1)) self /\
    vr cur = r ^ Z.of_nat k * v0 /\
    (k = 1%nat -> vr prev = v0) /\
    ((2 <= k)%nat -> vr prev = r ^ Z.of_nat (k - 1) * v0) /\
    Ball.t0 cur = tmax prev /\
    tmax cur = 2 * vr cur * np_sin theta / g + Ball.t0 cur /\
    tmax prev = 2 * vr prev * np_sin theta / g + Ball.t0 prev /\
    Ball.x0 cur =
      vr prev * np_cos theta * (tmax prev - Ball.t0 prev) + Ball.x0 prev /\
    arc_of (length t) k (x_tot b) =
      map (fun ti => vr cur * np_cos theta * (ti - Ball.t0 cur) + Ball.x0 cur)
          (Np.linspace (Ball.t0 cur) (tmax cur) 100) /\
    arc_of (length t) k (y_tot b) =
      map (fun ti => - g / 2 * (ti - Ball.t0 cur) ^ 2
                     + vr cur * np_sin theta * (ti - Ball.t0 cur) + y0)
          (Np.linspace (Ball.t0 cur) (tmax cur) 100).
Proof.
  intros H Hk Hn. apply init_after in H as (a & A & ->).
  exists a. split; [exact A|]. intros self prev cur.
  assert (Hs : tmax self =
               2 * Ball.v0 self * np_sin (Ball.theta self) / Ball.g self
               + Ball.t0 self) by reflexivity.
  assert (E : cur = rebound prev (Z.of_nat k)).
  { unfold cur, prev. destruct k as [|j]; [lia|].
    rewrite after_S. replace (S j - 1)%nat with j by lia. f_equal. lia. }
  destruct (after_frame (k - 1) self) as (Eg & _ & Ey & Ev & Eth & Er).
  fold prev in Eg, Ey, Ev, Eth, Er.
  destruct (after_arc k (Z.to_nat (n - 1)) self) as [Ax Ay]; [lia|].
  fold cur in Ax, Ay.
  split; [reflexivity|]. split.
  { rewrite E. unfold rebound. cbn [vr]. now rewrite Ev, Er. }
  split.
  { intros ->. reflexivity. }
  split.
  { intros Hk2. unfold prev. destruct (k - 1)%nat as [|j] eqn:Ek; [lia|].
    rewrite after_S. unfold rebound. cbn [vr].
    destruct (after_frame j self) as (_ & _ & _ & -> & _ & ->).
    cbn [Ball.v0 Ball.r self launched]. f_equal. f_equal. lia. }
  split.
  { rewrite E. reflexivity. }
  split.
  { apply (after_tmax k self Hs). }
  split.
  { apply (after_tmax (k - 1) self Hs). }
  split.
  { rewrite E. unfold rebound. cbn [Ball.x0]. now rewrite Eth. }
  split; assumption.
Qed.

Lemma rebound_speed_duration_origin_witness :
  exists t b,
    Ball.init 4 3 0 0 5 theta_345 (4 # 5) 0 = Ok b /\
    length t = 100%nat /\
    let self := launched 4 3 0 0 5 theta_345 (4 # 5) 0 t in
    b = after 2 self /\
    vr (after 2 self) = (4 # 5) ^ 2 * 5 /\
    arc_of (length t) 2 (x_tot b) =
      map (fun ti => vr (after 2 self) * (3 # 5) * (ti - t0 (after 2 self))
                     + x0 (after 2 self))
          (Np.linspace (t0 (after 2 self)) (tmax (after 2 self)) 100).
Proof.
  destruct (Ball.init 4 3 0 0 5 theta_345 (4 # 5) 0) as [b|e] eqn:E;
    [|discriminate E].
  assert (Hk : (1 <= 2)%nat) by (repeat constructor).
  destruct (rebound_speed_duration_origin _ _ _ _ _ _ _ _ b 2 E Hk eq_refl)
    as (t & A & B & V & _ & _ & _ & _ & _ & _ & X & _).
  exists t, b. split; [reflexivity|]. split.
  - apply arange_length in A. exact A.
  - cbv zeta. split; [exact B|]. split; [exact V|exact X].
Defined.

(** ** Apex heights *)

Lemma Qsquare_nonneg (x : Q) : 0 <= x * x.
Proof.
  destruct x as [n d]. unfold Qle. simpl.
  rewrite Z.mul_1_r. apply Z.square_nonneg.
Qed.

(** The parabola of an arc, completed to a square around its apex. *)
Lemma height_square (self : ball) (tau : Q) :
  ~ g self == 0 ->
  height self tau ==
    apex self - g self / 2 * (tau - apex_time self) ^ 2.
Proof. intros Hg. unfold apex, height, apex_time. field. exact Hg. Qed.

Lemma height_le_apex (self : ball) (tau : Q) :
  0 < g self -> height self tau <= apex self.
Proof.
  intros Hg. rewrite height_square.
  - assert (H : 0 <= g self / 2 * (tau - apex_time self) ^ 2).
    { apply Qmult_le_0_compat.
      - apply Qle_shift_div_l; [reflexivity|]. rewrite Qmult_0_l.
        now apply Qlt_le_weak.
      - simpl. apply Qsquare_nonneg. }
    lra.
  - intros E. rewrite E in Hg. now apply Qlt_irrefl in Hg.
Qed.

Lemma after_t (k : nat) (self : ball) :
  t (after (S k) self) =
  Np.linspace (t0 (after (S k) self)) (tmax (after (S k) self)) 100.
Proof. rewrite after_S. reflexivity. Qed.

(** C6.  The object the constructor returns is the state after
    [n_rebounds - 1] turns of the loop, and the y samples of its arc [k]
    (the first arc for [k = 0]) lie on the parabola the state after [k]
    turns describes.  With a positive gravity that parabola never exceeds
    its apex height [(vr * sin(theta))^2 / (2 * g)], which it reaches at
    [vr * sin(theta) / g], and that apex height is [(r^k)^2] times the apex
    height of the first arc. *)
Theorem apex_scaling (g : Q) (n : Z) (x0 y0 v0 : Q) (theta : angle)
    (r t0 : Q) (b : ball) (k : nat) :
  Ball.init g n x0 y0 v0 theta r t0 = Ok b ->
  0 < g -> k = 0%nat \/ (Z.of_nat k < n)%Z ->
  exists t,
    Np.arange t0 (2 * v0 * np_sin theta / g + t0)
              ((2 * v0 * np_sin theta / g + t0) / 100) = Ok t /\
    let self := launched g n x0 y0 v0 theta r t0 t in
    let first := after 0 self in
    let cur := after k self in
    b = after (Z.to_nat (n - 1)) self /\
    arc_of (length t) k (y_tot b) =
      map (fun ti => height cur (ti - Ball.t0 cur) + y0) (Ball.t cur) /\
    (forall tau, height cur tau <= apex cur) /\
    height cur (apex_time cur) == apex cur /\
    apex cur == (vr cur * np_sin theta) ^ 2 / (2 * g) /\
    apex cur == (r ^ Z.of_nat k) ^ 2 * apex first.
Proof.
  intros H Hg Hk. apply init_after in H as (a & A & ->).
  exists a. split; [exact A|]. intros self first cur.
  destruct (after_frame k self) as (Eg & _ & Ey & Ev & Eth & Er).
  fold cur in Eg, Ey, Ev, Eth, Er.
  assert (Hg' : ~ g == 0).
  { intros E. rewrite E in Hg. now apply Qlt_irrefl in Hg. }
  split; [reflexivity|]. split.
  { unfold cur. destruct k as [|j].
    - destruct (after_first_arc (Z.to_nat (n - 1)) self) as [_ Ay].
      exact Ay.
    - destruct (after_arc (S j) (Z.to_nat (n - 1)) self) as [_ Ay]; [lia|].
      etransitivity; [exact Ay|].
      destruct (after_frame (S j) self) as (Eg' & _ & _ & _ & Eth' & _).
      unfold height. rewrite Eg', Eth', after_t. reflexivity. }
  split.
  { intros tau. apply height_le_apex. now rewrite Eg. }
  split; [reflexivity|].
  assert (Hv : vr cur == r ^ Z.of_nat k * vr first).
  { unfold cur. destruct k as [|j].
    - fold first. simpl. ring.
    - rewrite after_S. unfold rebound. cbn [vr].
      destruct (after_frame j self) as (_ & _ & _ & -> & _ & ->).
      replace (1 + Z.of_nat j)%Z with (Z.of_nat (S j)) by lia.
      reflexivity. }
  split.
  - unfold apex, height, apex_time. rewrite Eg, Eth.
    cbn [Ball.g Ball.theta self launched]. field. exact Hg'.
  - unfold apex, height, apex_time. rewrite Hv, Eg, Eth.
    unfold first. rewrite after_0. unfold first_arc.
    cbn [Ball.g vr Ball.theta self launched]. field. exact Hg'.
Qed.

Lemma apex_scaling_witness :
  exists t b,
    Ball.init 4 3 0 0 5 theta_345 (4 # 5) 0 = Ok b /\
    let self := launched 4 3 0 0 5 theta_345 (4 # 5) 0 t in
    let cur := after 2 self in
    b = cur /\
    arc_of (length t) 2 (y_tot b) =
      map (fun ti => height cur (ti - t0 cur) + 0) (Ball.t cur) /\
    apex cur == ((4 # 5) ^ 2) ^ 2 * apex (after 0 self).
Proof.
  destruct (Ball.init 4 3 0 0 5 theta_345 (4 # 5) 0) as [b|e] eqn:E;
    [|discriminate E].
  destruct (apex_scaling _ _ _ _ _ _ _ _ b 2 E eq_refl (or_intror eq_refl))
    as (t & _ & B & Y & _ & _ & _ & S).
  exists t, b. split; [reflexivity|]. cbv zeta.
  split; [exact B|]. split; [exact Y|exact S].
Defined.

(** The constructor leaves [x_tot] and [y_tot] with one length. *)
Lemma init_lengths_agree (g : Q) (n : Z) (x0 y0 v0 : Q) (theta : angle)
    (r t0 : Q) (b : ball) :
  Ball.init g n x0 y0 v0 theta r t0 = Ok b ->
  length (x_tot b) = length (y_tot b).
Proof.
  unfold Ball.init. destruct (Qeq_bool g 0); [discriminate|]. cbv zeta.
  destruct (Np.arange _ _ _) as [a|e]; [|discriminate].
  cbn [bind]. intros [= <-].
  destruct (random_generation_length (launched g n x0 y0 v0 theta r t0 a))
    as [-> ->]. reflexivity.
Qed.

End Generator.

(** * Facts about [an_animation] *)

Section Synchronizer.

Import Ball Animation.

Lemma full_ok {A : Type} (n : Z) (v : A) :
  0 <= n -> Np.full n v = Ok (repeat v (Z.to_nat n)).
Proof.
  intros H. unfold Np.full. destruct (Z.ltb_spec n 0); [lia|reflexivity].
Qed.

Lemma full_negative {A : Type} (n : Z) (v : A) :
  n < 0 -> Np.full n v = Raise ValueError.
Proof.
  intros H. unfold Np.full. destruct (Z.ltb_spec n 0); [reflexivity|lia].
Qed.

Lemma pad_paddable (m : Z) (b : ball) :
  paddable m b -> pad m b = Ok (padded m b).
Proof.
  intros (Hx & Hy & Hm). unfold pad.
  rewrite (getitem_nonempty _ 0%Q Hx). cbn [bind].
  rewrite full_ok by lia. cbn [bind].
  rewrite (getitem_nonempty _ 0%Q Hy). cbn [bind].
  rewrite full_ok by lia. reflexivity.
Qed.

Lemma pad_x_empty (m : Z) (b : ball) :
  x_tot b = [] -> pad m b = Raise IndexError.
Proof. intros H. unfold pad. now rewrite H, getitem_empty. Qed.

Lemma pad_y_empty (m : Z) (b : ball) :
  Py.len (x_tot b) <= m -> y_tot b = [] -> pad m b = Raise IndexError.
Proof.
  intros Hm H. destruct (x_tot b) as [|x xs] eqn:E.
  - now apply pad_x_empty.
  - unfold pad. rewrite E.
    rewrite (getitem_nonempty (x :: xs) 0%Q) by discriminate. cbn [bind].
    rewrite full_ok by lia. cbn [bind]. now rewrite H, getitem_empty.
Qed.

Lemma pad_too_long (m : Z) (b : ball) :
  x_tot b <> [] -> m < Py.len (x_tot b) -> pad m b = Raise ValueError.
Proof.
  intros Hx Hm. unfold pad. rewrite (getitem_nonempty _ 0%Q Hx). cbn [bind].
  now rewrite full_negative by lia.
Qed.

Lemma pad_inv (m : Z) (b b' : ball) :
  pad m b = Ok b' -> paddable m b /\ b' = padded m b.
Proof.
  intros H.
  assert (Hx : x_tot b <> []).
  { intros E. rewrite (pad_x_empty _ _ E) in H. discriminate. }
  assert (Hm : Py.len (x_tot b) <= m).
  { destruct (Z.le_gt_cases (Py.len (x_tot b)) m) as [L|L]; [exact L|].
    rewrite (pad_too_long _ _ Hx L) in H. discriminate. }
  assert (Hy : y_tot b <> []).
  { intros E. rewrite (pad_y_empty _ _ Hm E) in H. discriminate. }
  assert (P : paddable m b) by (now repeat split).
  split; [exact P|]. rewrite (pad_paddable _ _ P) in H. congruence.
Qed.

Lemma padded_length (m : Z) (b : ball) :
  Py.len (x_tot b) <= m -> Py.len (x_tot (padded m b)) = m.
Proof.
  intros H. unfold padded, Py.len in *. cbn [x_tot].
  rewrite length_app, repeat_length. lia.
Qed.

Lemma padded_paddable (m : Z) (b : ball) :
  paddable m b -> paddable m (padded m b).
Proof.
  intros (Hx & Hy & Hm). repeat split.
  - unfold padded. cbn [x_tot]. intros E. apply app_eq_nil in E. tauto.
  - unfold padded. cbn [y_tot]. intros E. apply app_eq_nil in E. tauto.
  - rewrite padded_length by exact Hm. lia.
Qed.

(** Padding an object that has the common length changes nothing. *)
Lemma padded_full_length (m : Z) (b : ball) :
  Py.len (x_tot b) = m -> padded m b = b.
Proof.
  intros H. unfold padded. rewrite H, Z.sub_diag. cbn [Z.to_nat repeat].
  rewrite !app_nil_r. now destruct b.
Qed.

Lemma padded_idempotent (m : Z) (b : ball) :
  Py.len (x_tot b) <= m -> padded m (padded m b) = padded m b.
Proof. intros H. apply padded_full_length. now apply padded_length. Qed.

Lemma store_same (l : loc) (b : ball) (h : heap) : store l b h l = b.
Proof. unfold store. now rewrite Nat.eqb_refl. Qed.

Lemma store_other (l l' : loc) (b : ball) (h : heap) :
  l' <> l -> store l b h l' = h l'.
Proof. intros H. unfold store. now apply Nat.eqb_neq in H as ->. Qed.

(** A successful run of the loop: every object it was given could be padded,
    each of them is padded once however often it is listed, and the other
    objects of the heap are left alone. *)
Lemma reset_loop_inv (m : Z) (ls : list loc) (h h' : heap) :
  reset_loop m ls h = Ok h' ->
  (forall l, In l ls -> paddable m (h l)) /\
  (forall l, In l ls -> h' l = padded m (h l)) /\
  (forall l, ~ In l ls -> h' l = h l).
Proof.
  revert h. induction ls as [|l0 ls IH]; intros h H.
  - injection H as <-. split; [|split]; intros k Hk; [destruct Hk..|reflexivity].
  - cbn [reset_loop] in H. destruct (pad m (h l0)) as [b'|e] eqn:P;
      [|discriminate].
    cbn [bind] in H. apply pad_inv in P as [P0 ->].
    destruct (IH _ H) as (I1 & I2 & I3). clear IH H.
    assert (S : forall l, In l ls -> l <> l0 ->
                store l0 (padded m (h l0)) h l = h l)
      by (intros; now apply store_other).
    split; [|split].
    + intros l [<-|Hl]; [exact P0|].
      destruct (Nat.eq_dec l l0) as [->|N]; [exact P0|].
      rewrite <- (S l Hl N). now apply I1.
    + intros l Hin. destruct (in_dec Nat.eq_dec l ls) as [Hl|Hl].
      * rewrite (I2 l Hl). destruct (Nat.eq_dec l l0) as [->|N].
        -- rewrite store_same. apply padded_idempotent, P0.
        -- now rewrite (S l Hl N).
      * destruct Hin as [<-|Hin]; [|contradiction].
        now rewrite (I3 _ Hl), store_same.
    + intros l Hl. rewrite I3 by (intros Hin; apply Hl; now right).
      apply store_other. intros ->. apply Hl. now left.
Qed.

Lemma reset_loop_paddable (m : Z) (ls : list loc) (h : heap) :
  (forall l, In l ls -> paddable m (h l)) ->
  exists h', reset_loop m ls h = Ok h'.
Proof.
  revert h. induction ls as [|l0 ls IH]; intros h H.
  - now exists h.
  - cbn [reset_loop]. rewrite pad_paddable by (apply H; now left).
    cbn [bind]. apply IH. intros l Hl.
    destruct (Nat.eq_dec l l0) as [->|N].
    + rewrite store_same. apply padded_paddable, H. now left.
    + rewrite store_other by exact N. apply H. now right.
Qed.

(** The loop stops with IndexError at the first object that has no sample,
    when no object is longer than [max_len]. *)
Lemma reset_loop_empty (m : Z) (ls : list loc) (h : heap) :
  (forall l, In l ls -> Py.len (x_tot (h l)) <= m) ->
  (exists l, In l ls /\ (x_tot (h l) = [] \/ y_tot (h l) = [])) ->
  reset_loop m ls h = Raise IndexError.
Proof.
  revert h. induction ls as [|l0 ls IH]; intros h Hm (l & Hl & Hbad).
  - destruct Hl.
  - cbn [reset_loop].
    destruct (x_tot (h l0)) as [|x xs] eqn:Ex.
    { now rewrite pad_x_empty. }
    destruct (y_tot (h l0)) as [|y ys] eqn:Ey.
    { rewrite pad_y_empty; [reflexivity| |exact Ey]. apply Hm. now left. }
    assert (P0 : paddable m (h l0)).
    { repeat split; [now rewrite Ex|now rewrite Ey|apply Hm; now left]. }
    rewrite (pad_paddable _ _ P0). cbn [bind].
    assert (N : l <> l0).
    { intros ->. rewrite Ex, Ey in Hbad. now destruct Hbad. }
    apply IH.
    + intros l' Hl'. destruct (Nat.eq_dec l' l0) as [->|N'].
      * rewrite store_same. apply padded_paddable, P0.
      * rewrite store_other by exact N'. apply Hm. now right.
    + exists l. rewrite store_other by exact N.
      split; [|exact Hbad]. destruct Hl as [->|Hl]; [congruence|exact Hl].
Qed.

(** [max_len] is the largest of the lengths. *)
Lemma max_len_list_max (bs : list loc) (h : heap) :
  bs <> [] ->
  Py.max (map (fun l => Py.len (x_tot (h l))) bs) = Ok (longest bs h).
Proof.
  intros H. unfold longest. rewrite <- max_list_max.
  - now rewrite map_map.
  - destruct bs; [congruence|discriminate].
Qed.

Lemma list_max_bound (bs : list loc) (h : heap) (l : loc) :
  In l bs -> Py.len (x_tot (h l)) <= longest bs h.
Proof.
  intros H. unfold Py.len, longest. apply inj_le.
  assert (F : Forall (fun k => (k <= list_max (map (fun l => length (x_tot (h l))) bs))%nat)
                (map (fun l => length (x_tot (h l))) bs))
    by now apply list_max_le.
  rewrite Forall_forall in F. apply F. now apply (in_map (fun l => length (x_tot (h l)))).
Qed.

Lemma init_inv (bs : list loc) (h h' : heap) (a : an_animation) :
  Animation.init bs h = Ok (a, h') ->
  bs <> [] /\ a = Animation.Build bs (longest bs h) /\
  reset_loop (longest bs h) bs h = Ok h'.
Proof.
  unfold Animation.init. destruct bs as [|l0 bs]; [discriminate|].
  rewrite max_len_list_max by discriminate. cbn [bind].
  unfold reset_time. cbn [balls max_len].
  destruct (reset_loop _ _ _) as [h1|e]; [|discriminate].
  cbn [bind]. intros [= <- <-]. now repeat split.
Qed.

Lemma init_paddable (bs : list loc) (h : heap) :
  bs <> [] ->
  (forall l, In l bs -> x_tot (h l) <> [] /\ y_tot (h l) <> []) ->
  exists h', Animation.init bs h =
             Ok (Animation.Build bs (longest bs h), h').
Proof.
  intros Hbs H. unfold Animation.init.
  rewrite max_len_list_max by exact Hbs. cbn [bind].
  unfold reset_time. cbn [balls max_len].
  destruct (reset_loop_paddable (longest bs h) bs h) as [h' ->].
  - intros l Hl. destruct (H l Hl) as [Hx Hy].
    repeat split; [exact Hx|exact Hy|now apply list_max_bound].
  - now exists h'.
Qed.

(** ** Padding to the common length *)

(** C2, amended.  Given one object or more, each with at least one x and one
    y sample, the constructor succeeds; it keeps the list it was given and
    the largest length; every object then has that length in [x_tot], and
    [x_tot] and [y_tot] are the old sequences followed by copies of their
    old last element, as many as [x_tot] was short. *)
Theorem init_pads_to_longest (bs : list loc) (h : heap) :
  bs <> [] ->
  (forall l, In l bs -> x_tot (h l) <> [] /\ y_tot (h l) <> []) ->
  exists a h',
    Animation.init bs h = Ok (a, h') /\
    length (balls a) = length bs /\
    max_len a = longest bs h /\
    forall l, In l bs ->
      let n := Z.to_nat (max_len a - Py.len (x_tot (h l))) in
      Py.len (x_tot (h' l)) = max_len a /\
      x_tot (h' l) = x_tot (h l) ++ repeat (last (x_tot (h l)) 0%Q) n /\
      y_tot (h' l) = y_tot (h l) ++ repeat (last (y_tot (h l)) 0%Q) n /\
      (length (y_tot (h l)) = length (x_tot (h l)) ->
       Py.len (y_tot (h' l)) = max_len a).
Proof.
  intros Hbs H. destruct (init_paddable bs h Hbs H) as [h' E].
  exists (Animation.Build bs (longest bs h)), h'.
  destruct (init_inv _ _ _ _ E) as (_ & _ & R).
  destruct (reset_loop_inv _ _ _ _ R) as (_ & I2 & _).
  split; [exact E|]. split; [reflexivity|]. split; [reflexivity|].
  intros l Hl n. cbn [max_len] in *. rewrite (I2 l Hl).
  pose proof (list_max_bound bs h l Hl) as B.
  split; [now apply padded_length|].
  unfold padded. cbn [x_tot y_tot]. fold n.
  split; [reflexivity|]. split; [reflexivity|].
  intros Hy. unfold Py.len in *.
  rewrite length_app, repeat_length, Hy. subst n. lia.
Qed.

Lemma init_pads_to_longest_witness :
  exists a h',
    Animation.init [0; 1]%nat long_and_short = Ok (a, h') /\
    max_len a = 2 /\ x_tot (h' 1%nat) = [5; 5]%Q /\ y_tot (h' 1%nat) = [6; 6]%Q.
Proof.
  destruct (init_pads_to_longest [0; 1]%nat long_and_short)
    as (a & h' & E & _ & M & P).
  - discriminate.
  - intros l [<-|[<-|[]]]; split; discriminate.
  - exists a, h'. destruct (P 1%nat) as (_ & X & Y & _); [simpl; tauto|].
    rewrite M in X, Y. repeat split; assumption.
Defined.

(** C2 as stated fails on an object without samples, which the constructor
    of [ball] does build (a launch time more than one flight before 0):
    line 153 reads its last sample and raises IndexError. *)
Lemma init_raises_on_no_samples :
  Ball.init 1 1 0 0 1 theta_up (4 # 5) (-5) = Ok no_samples /\
  Animation.init [0%nat] (heap_of [no_samples]) = Raise IndexError.
Proof. split; reflexivity. Qed.

(** ** Exceptions *)

(** C4, amended.  The constructor raises ValueError on an empty list and
    IndexError when one of the objects has no x or no y sample; it succeeds
    on every other input. *)
Theorem init_outcomes (bs : list loc) (h : heap) :
  (bs = [] -> Animation.init bs h = Raise ValueError) /\
  (bs <> [] ->
   (exists l, In l bs /\ (x_tot (h l) = [] \/ y_tot (h l) = [])) ->
   Animation.init bs h = Raise IndexError) /\
  (bs <> [] ->
   (forall l, In l bs -> x_tot (h l) <> [] /\ y_tot (h l) <> []) ->
   exists a h', Animation.init bs h = Ok (a, h')).
Proof.
  split; [|split].
  - now intros ->.
  - intros Hbs Hbad. unfold Animation.init.
    rewrite max_len_list_max by exact Hbs. cbn [bind].
    unfold reset_time. cbn [balls max_len].
    rewrite reset_loop_empty; [reflexivity| |exact Hbad].
    intros l Hl. now apply list_max_bound.
  - intros Hbs H. destruct (init_paddable bs h Hbs H) as [h' E]. eauto.
Qed.

Lemma init_outcomes_witness :
  Animation.init [] (heap_of []) = Raise ValueError /\
  Animation.init [0; 1]%nat sampled_and_not = Raise IndexError.
Proof.
  split.
  - now apply (proj1 (init_outcomes [] (heap_of []))).
  - apply (proj1 (proj2 (init_outcomes [0; 1]%nat sampled_and_not))).
    + discriminate.
    + exists 1%nat. simpl. tauto.
Defined.

(** C4 as stated fails on zero bodies: [max] of an empty sequence raises
    ValueError. *)
Lemma init_raises_on_no_body :
  Animation.init [] (heap_of []) = Raise ValueError.
Proof. reflexivity. Qed.

(** ** Idempotence *)

Lemma longest_constant (bs : list loc) (h : heap) (m : Z) :
  bs <> [] -> (forall l, In l bs -> Py.len (x_tot (h l)) = m) ->
  longest bs h = m.
Proof.
  intros Hbs H. unfold longest, Py.len in *.
  destruct bs as [|l0 bs]; [congruence|]. clear Hbs.
  rewrite <- (H l0) by now left. f_equal.
  assert (F : forall l, In l (l0 :: bs) ->
                length (x_tot (h l)) = length (x_tot (h l0))).
  { intros l Hl. apply Nat2Z.inj. rewrite (H l Hl), (H l0); [reflexivity|now left]. }
  clear H. revert F. generalize (length (x_tot (h l0))) as c. intros c F.
  induction bs as [|l1 bs IH] in l0, F |- *.
  - cbn. rewrite (F l0) by now left. apply Nat.max_0_r.
  - change (Nat.max (length (x_tot (h l0)))
              (list_max (map (fun l => length (x_tot (h l))) (l1 :: bs))) = c).
    rewrite (IH l1) by (intros l Hl; apply F; now right).
    rewrite (F l0) by now left. apply Nat.max_id.
Qed.

(** On objects that already share one length the constructor changes no
    object of the heap. *)
Lemma init_on_synchronized (bs : list loc) (h : heap) (m : Z) :
  bs <> [] ->
  (forall l, In l bs -> x_tot (h l) <> [] /\ y_tot (h l) <> []) ->
  (forall l, In l bs -> Py.len (x_tot (h l)) = m) ->
  exists h', Animation.init bs h = Ok (Animation.Build bs m, h') /\
             forall l, h' l = h l.
Proof.
  intros Hbs Hne Hm. destruct (init_paddable bs h Hbs Hne) as [h' E].
  rewrite (longest_constant bs h m Hbs Hm) in E.
  exists h'. split; [exact E|].
  destruct (init_inv _ _ _ _ E) as (_ & _ & R).
  rewrite (longest_constant bs h m Hbs Hm) in R.
  destruct (reset_loop_inv _ _ _ _ R) as (_ & I2 & I3).
  intros l. destruct (in_dec Nat.eq_dec l bs) as [Hl|Hl].
  - rewrite (I2 l Hl). apply padded_full_length. now apply Hm.
  - now apply I3.
Qed.

(** C7.  After a successful construction, a second construction over the
    same list succeeds with the same [max_len] and changes no object. *)
Theorem init_twice (bs : list loc) (h h' : heap) (a : an_animation) :
  Animation.init bs h = Ok (a, h') ->
  exists h'', Animation.init bs h' = Ok (a, h'') /\ forall l, h'' l = h' l.
Proof.
  intros E. destruct (init_inv _ _ _ _ E) as (Hbs & -> & R).
  destruct (reset_loop_inv _ _ _ _ R) as (I1 & I2 & _).
  apply init_on_synchronized; [exact Hbs| |].
  - intros l Hl. rewrite (I2 l Hl).
    destruct (padded_paddable _ _ (I1 l Hl)) as (Hx & Hy & _). now split.
  - intros l Hl. rewrite (I2 l Hl). apply padded_length, (I1 l Hl).
Qed.

Lemma init_twice_witness :
  match Animation.init [0; 1]%nat long_and_short with
  | Ok (a, h') =>
      exists h'', Animation.init [0; 1]%nat h' = Ok (a, h'') /\
                  forall l, h'' l = h' l
  | Raise _ => False
  end.
Proof.
  destruct (Animation.init [0; 1]%nat long_and_short) as [[a h']|e] eqn:E.
  - exact (init_twice _ _ _ _ E).
  - discriminate E.
Defined.

(** ** What the constructor changes *)

(** C9.  The constructor of [ball] leaves [x_tot] and [y_tot] with one
    length, and the constructor of [an_animation] keeps the two lengths of
    every object equal. *)
Theorem lengths_agree :
  (forall g n x0 y0 v0 theta r t0 b,
     Ball.init g n x0 y0 v0 theta r t0 = Ok b ->
     length (x_tot b) = length (y_tot b)) /\
  (forall bs h a h' l,
     Animation.init bs h = Ok (a, h') ->
     length (x_tot (h l)) = length (y_tot (h l)) ->
     length (x_tot (h' l)) = length (y_tot (h' l))).
Proof.
  split.
  - intros g n x0 y0 v0 theta r t0 b. apply init_lengths_agree.
  - intros bs h a h' l E Hl.
    destruct (init_inv _ _ _ _ E) as (_ & _ & R).
    destruct (reset_loop_inv _ _ _ _ R) as (_ & I2 & I3).
    destruct (in_dec Nat.eq_dec l bs) as [Hin|Hin].
    + rewrite (I2 l Hin). unfold padded. cbn [x_tot y_tot].
      rewrite !length_app, !repeat_length. lia.
    + now rewrite (I3 l Hin).
Qed.

Lemma lengths_agree_witness :
  match Ball.init 4 2 0 0 5 theta_345 (4 # 5) 0 with
  | Ok b => length (x_tot b) = length (y_tot b)
  | Raise _ => False
  end.
Proof.
  destruct (Ball.init 4 2 0 0 5 theta_345 (4 # 5) 0) as [b|e] eqn:E.
  - exact (proj1 lengths_agree _ _ _ _ _ _ _ _ _ E).
  - discriminate E.
Defined.

(** C10.  A successful construction keeps the list of references it was
    given; in every object it changes [x_tot] and [y_tot] alone, and only by
    appending; an object that is not listed is not changed at all. *)
Theorem init_frame (bs : list loc) (h h' : heap) (a : an_animation) :
  Animation.init bs h = Ok (a, h') ->
  balls a = bs /\
  forall l,
    (g (h' l) = g (h l) /\ n_rebounds (h' l) = n_rebounds (h l) /\
     x0 (h' l) = x0 (h l) /\ y0 (h' l) = y0 (h l) /\ v0 (h' l) = v0 (h l) /\
     theta (h' l) = theta (h l) /\ r (h' l) = r (h l) /\
     t0 (h' l) = t0 (h l) /\ vr (h' l) = vr (h l) /\ t (h' l) = t (h l) /\
     tmax (h' l) = tmax (h l)) /\
    (exists px py, x_tot (h' l) = x_tot (h l) ++ px /\
                   y_tot (h' l) = y_tot (h l) ++ py /\
                   length px = length py) /\
    (In l bs -> Py.len (x_tot (h' l)) = max_len a) /\
    (~ In l bs -> h' l = h l).
Proof.
  intros E. destruct (init_inv _ _ _ _ E) as (_ & -> & R).
  destruct (reset_loop_inv _ _ _ _ R) as (I1 & I2 & I3).
  split; [reflexivity|]. intros l. cbn [max_len].
  destruct (in_dec Nat.eq_dec l bs) as [Hin|Hin].
  - rewrite (I2 l Hin). unfold padded at 1 2 3 4 5 6 7 8 9 10 11.
    cbn [g n_rebounds x0 y0 v0 theta r t0 vr t tmax].
    split; [now repeat split|]. split; [|split].
    + unfold padded. cbn [x_tot y_tot]. do 2 eexists.
      split; [reflexivity|]. split; [reflexivity|].
      now rewrite !repeat_length.
    + intros _. apply padded_length, (I1 l Hin).
    + contradiction.
  - rewrite (I3 l Hin). split; [now repeat split|]. split; [|split].
    + exists [], []. now rewrite !app_nil_r.
    + contradiction.
    + reflexivity.
Qed.

Lemma init_frame_witness :
  match Animation.init [0; 1]%nat long_and_short with
  | Ok (a, h') =>
      balls a = [0; 1]%nat /\
      v0 (h' 1%nat) = v0 (long_and_short 1%nat) /\
      h' 2%nat = long_and_short 2%nat
  | Raise _ => False
  end.
Proof.
  destruct (Animation.init [0; 1]%nat long_and_short) as [[a h']|e] eqn:E.
  - destruct (init_frame _ _ _ _ E) as (B & F). split; [exact B|].
    destruct (F 1%nat) as ((_ & _ & _ & _ & V & _) & _).
    destruct (F 2%nat) as (_ & _ & _ & N).
    split; [exact V|]. apply N. simpl. intros [H|[H|[]]]; discriminate H.
  - discriminate E.
Defined.

End Synchronizer.

(** * More about the constructor of [ball] *)

Section Construction.

Import Ball.
Local Open Scope Q_scope.




(** The samples of a state stay in front of everything a later turn of the
    loop appends. *)
Lemma rebounds_prefix (iis : list Z) (self : ball) :
  exists x y,
    x_tot (rebounds self iis) = x_tot self ++ x /\
    y_tot (rebounds self iis) = y_tot self ++ y.
Proof.
  unfold rebounds. revert self.
  induction iis as [|ii iis IH]; intros self.
  - exists [], []. now rewrite !app_nil_r.
  - cbn [fold_left]. destruct (IH (rebound self ii)) as (x & y & -> & ->).
    destruct (rebound_x_tot self ii) as (x' & _ & ->).
    destruct (rebound_y_tot self ii) as (y' & _ & ->).
    exists (x' ++ x), (y' ++ y). now rewrite !app_assoc.
Qed.

(** What the constructor keeps of its arguments, and what it overwrites: the
    attributes [g], [n_rebounds], [y0], [v0], [theta] and [r] are the
    arguments; with fewer than two arcs so are [x0] and [t0]; with two arcs
    or more [t0], [tmax], [t] and [vr] describe the last arc. *)
Theorem init_attributes (g : Q) (n : Z) (x0 y0 v0 : Q) (theta : angle)
    (r t0 : Q) (b : ball) :
  Ball.init g n x0 y0 v0 theta r t0 = Ok b ->
  (Ball.g b = g /\ n_rebounds b = n /\ Ball.y0 b = y0 /\ Ball.v0 b = v0 /\
   Ball.theta b = theta /\ Ball.r b = r) /\
  ((n <= 1)%Z -> Ball.x0 b = x0 /\ Ball.t0 b = t0 /\ vr b = v0) /\
  ((2 <= n)%Z ->
   vr b = r ^ (n - 1) * v0 /\
   tmax b = 2 * vr b * np_sin theta / g + Ball.t0 b /\
   t b = Np.linspace (Ball.t0 b) (tmax b) 100).
Proof.
  intros H. apply init_after in H as (a & _ & ->).
  set (self := launched g n x0 y0 v0 theta r t0 a).
  split; [|split].
  - destruct (after_frame (Z.to_nat (n - 1)) self) as (-> & -> & -> & -> & -> & ->).
    now repeat split.
  - intros Hn. replace (Z.to_nat (n - 1)) with 0%nat by lia.
    rewrite after_0. now repeat split.
  - intros Hn. destruct (Z.to_nat (n - 1)) as [|k] eqn:E; [lia|].
    rewrite after_S.
    destruct (after_frame k self) as (Eg & _ & _ & Ev & Eth & Er).
    unfold rebound. cbn [vr tmax Ball.t0 t]. rewrite Eg, Ev, Eth, Er.
    replace (1 + Z.of_nat k)%Z with (n - 1)%Z by lia.
    now repeat split.
Qed.

Lemma init_attributes_witness :
  match Ball.init 4 3 0 0 5 theta_345 (4 # 5) 0 with
  | Ok b => Ball.v0 b = 5 /\ vr b = (4 # 5) ^ 2 * 5
  | Raise _ => False
  end.
Proof.
  destruct (Ball.init 4 3 0 0 5 theta_345 (4 # 5) 0) as [b|e] eqn:E.
  - destruct (init_attributes _ _ _ _ _ _ _ _ _ E) as ((_ & _ & _ & V & _) & _ & L).
    split; [exact V|]. apply L. lia.
  - discriminate E.
Defined.

(** ** How many samples *)

Lemma flight_positive (g v0 : Q) (theta : angle) :
  0 < g -> 0 < v0 -> 0 < np_sin theta -> 0 < 2 * v0 * np_sin theta / g.
Proof.
  intros Hg Hv Hs. apply Qlt_shift_div_l; [exact Hg|].
  rewrite Qmult_0_l. apply Qmult_lt_0_compat; [|exact Hs].
  apply Qmult_lt_0_compat; [reflexivity|exact Hv].
Qed.

(** The number of samples [np.arange] gives the first arc, when the flight
    lasts [T > 0] and is launched at [t0]. *)
Lemma first_count_from_zero (T t0 : Q) :
  0 < T -> 0 <= t0 ->
  (1 <= Qceiling ((T + t0 - t0) / ((T + t0) / 100)) <= 100)%Z.
Proof.
  intros HT Ht. set (q := (T + t0 - t0) / ((T + t0) / 100)).
  assert (Hd : 0 < (T + t0) / 100) by (apply Qlt_shift_div_l; lra).
  assert (H0 : 0 < q) by (apply Qlt_shift_div_l; lra).
  assert (H1 : q <= 100).
  { apply Qle_shift_div_r; [exact Hd|].
    assert (E : 100 * ((T + t0) / 100) == T + t0) by field. lra. }
  split.
  - pose proof (Qle_ceiling q) as C.
    assert (L : inject_Z 0 < inject_Z (Qceiling q))
      by exact (Qlt_le_trans _ _ _ H0 C).
    rewrite <- Zlt_Qlt in L. lia.
  - change 100%Z with (Qceiling 100). now apply Qceiling_resp_le.
Qed.

Lemma init_generation (g : Q) (n : Z) (x0 y0 v0 : Q) (theta : angle)
    (r t0 : Q) (b : ball) :
  Ball.init g n x0 y0 v0 theta r t0 = Ok b ->
  exists t,
    Np.arange t0 (2 * v0 * np_sin theta / g + t0)
              ((2 * v0 * np_sin theta / g + t0) / 100) = Ok t /\
    b = random_generation (launched g n x0 y0 v0 theta r t0 t).
Proof.
  unfold Ball.init. destruct (Qeq_bool g 0); [discriminate|]. cbv zeta.
  destruct (Np.arange _ _ _) as [a|e]; [|discriminate].
  cbn [bind]. intros [= <-]. now exists a.
Qed.

Lemma count_from_zero (g : Q) (n : Z) (x0 y0 v0 : Q) (theta : angle)
    (r t0 : Q) (b : ball) :
  0 < g -> 0 < v0 -> 0 < np_sin theta -> (1 <= n)%Z -> 0 <= t0 ->
  Ball.init g n x0 y0 v0 theta r t0 = Ok b ->
  Py.len (y_tot b) = Py.len (x_tot b) /\
  (100 * (n - 1) < Py.len (x_tot b) <= 100 * n)%Z.
Proof.
  intros Hg Hv Hs Hn Ht H.
  pose proof (flight_positive g v0 theta Hg Hv Hs) as HT.
  pose proof (init_lengths_agree _ _ _ _ _ _ _ _ _ H) as Hl.
  apply init_generation in H as (a & A & ->).
  destruct (random_generation_length (launched g n x0 y0 v0 theta r t0 a))
    as [Lx _].
  unfold Py.len. rewrite <- Hl, Lx. cbn [Ball.t launched Ball.n_rebounds].
  rewrite (arange_length _ _ _ _ A).
  pose proof (first_count_from_zero _ t0 HT Ht). split; [reflexivity|lia].
Qed.



(** ** The ends of the arcs *)

(** At every rebound after the first the x samples are continuous, and the
    new arc starts at the launch height: the last x sample of the arc [k]
    is the first x sample of the arc [k + 1], whose first y sample is
    [y0]. *)
Theorem later_boundaries (g : Q) (n : Z) (x0 y0 v0 : Q) (theta : angle)
    (r t0 : Q) (b : ball) (k : nat) (d : Q) :
  Ball.init g n x0 y0 v0 theta r t0 = Ok b ->
  (1 <= k)%nat -> (Z.of_nat k + 1 < n)%Z ->
  exists t : list Q,
    Np.arange t0 (2 * v0 * np_sin theta / g + t0)
              ((2 * v0 * np_sin theta / g + t0) / 100) = Ok t /\
    last (arc_of (length t) k (x_tot b)) d ==
      hd d (arc_of (length t) (S k) (x_tot b)) /\
    hd d (arc_of (length t) (S k) (y_tot b)) == y0.
Proof.
  intros H Hk Hn. apply init_after in H as (a & A & ->).
  exists a. split; [exact A|].
  set (self := launched g n x0 y0 v0 theta r t0 a).
  destruct (after_arc k (Z.to_nat (n - 1)) self) as [Ax _]; [lia|].
  destruct (after_arc (S k) (Z.to_nat (n - 1)) self) as [Bx By]; [lia|].
  cbv zeta in Ax, Bx, By. cbn [Ball.t self launched] in Ax, Bx, By.
  rewrite Ax, Bx, By, !linspace_100, !map_app. cbn [map].
  rewrite last_last. change (seq 0 99) with (0%nat :: seq 1 98).
  cbn [map app hd].
  assert (X : Ball.x0 (after (S k) self) =
              vr (after k self) * np_cos (Ball.theta self)
              * (tmax (after k self) - Ball.t0 (after k self))
              + Ball.x0 (after k self)).
  { rewrite after_S. unfold rebound. cbn [Ball.x0].
    destruct (after_frame k self) as (_ & _ & _ & _ & -> & _). reflexivity. }
  rewrite X. cbn [Ball.theta Ball.g Ball.y0 self launched].
  unfold Np.of_nat. simpl inject_Z. split; ring.
Qed.

Lemma later_boundaries_witness :
  exists (t : list Q) b,
    Ball.init 4 3 0 0 5 theta_345 (4 # 5) 0 = Ok b /\
    last (arc_of (length t) 1 (x_tot b)) 0 ==
      hd 0 (arc_of (length t) 2 (x_tot b)) /\
    hd 0 (arc_of (length t) 2 (y_tot b)) == 0.
Proof.
  destruct (Ball.init 4 3 0 0 5 theta_345 (4 # 5) 0) as [b|e] eqn:E;
    [|discriminate E].
  assert (Hk : (1 <= 1)%nat) by constructor.
  destruct (later_boundaries _ _ _ _ _ _ _ _ b 1 0 E Hk eq_refl)
    as (t & _ & X & Y).
  exists t, b. split; [reflexivity|]. split; [exact X|exact Y].
Defined.

(** When the first arc has a sample at all, the first sample of the
    trajectory is the launch point [(x0, y0)] of the arguments, although the
    loop overwrites the attribute [x0]. *)
Theorem init_first_sample (g : Q) (n : Z) (x0 y0 v0 : Q) (theta : angle)
    (r t0 : Q) (b : ball) (d : Q) :
  Ball.init g n x0 y0 v0 theta r t0 = Ok b ->
  (100 * Z.to_nat (n - 1) < length (x_tot b))%nat ->
  nth 0 (x_tot b) d == x0 /\ nth 0 (y_tot b) d == y0.
Proof.
  intros H Hl. apply init_generation in H as (a & A & ->).
  destruct (random_generation_length (launched g n x0 y0 v0 theta r t0 a))
    as [Lx _].
  rewrite Lx in Hl. cbn [Ball.t n_rebounds launched] in Hl.
  unfold Np.arange in A. destruct (Qeq_bool _ 0); [discriminate|].
  injection A as <-. rewrite length_map, length_seq in Hl.
  destruct (Z.to_nat _) as [|m] eqn:E; [lia|].
  cbn [seq map]. unfold random_generation.
  set (T := 2 * v0 * np_sin theta / g) in *.
  destruct (rebounds_prefix (Py.range 1 n)
              (first_arc (launched g n x0 y0 v0 theta r t0
                 ((t0 + Np.of_nat 0 * ((T + t0) / 100))
                  :: map (fun i => t0 + Np.of_nat i * ((T + t0) / 100))
                         (seq 1 m)))))
    as (x & y & Ex & Ey).
  cbn [n_rebounds launched] in Ex, Ey |- *. rewrite Ex, Ey.
  cbn [first_arc launched x_tot y_tot Ball.t Ball.g Ball.v0 Ball.theta
       Ball.t0 Ball.x0 Ball.y0 map app nth].
  unfold Np.of_nat. simpl inject_Z. split; ring.
Qed.

Lemma init_first_sample_witness :
  match Ball.init 4 2 1 2 5 theta_345 (4 # 5) (-1) with
  | Ok b => nth 0 (x_tot b) 0 == 1 /\ nth 0 (y_tot b) 0 == 2
  | Raise _ => False
  end.
Proof.
  destruct (Ball.init 4 2 1 2 5 theta_345 (4 # 5) (-1)) as [b|e] eqn:E.
  - apply (init_first_sample 4 2 1 2 5 theta_345 (4 # 5) (-1) b 0 E).
    apply init_generation in E as (a & A & ->).
    destruct (random_generation_length
                (launched 4 2 1 2 5 theta_345 (4 # 5) (-1) a)) as [-> _].
    apply arange_length in A. cbn [Ball.t n_rebounds launched].
    rewrite A. vm_compute. repeat constructor.
  - discriminate E.
Defined.

(** With two arcs or more the last sample of the trajectory is the one
    [np.linspace] takes at [tmax]: the point the last arc reaches at the time
    [tmax - t0] after its start, by the attributes the object is left
    with. *)
Theorem init_last_sample (g : Q) (n : Z) (x0 y0 v0 : Q) (theta : angle)
    (r t0 : Q) (b : ball) (d : Q) :
  (2 <= n)%Z ->
  Ball.init g n x0 y0 v0 theta r t0 = Ok b ->
  last (x_tot b) d =
    vr b * np_cos theta * (tmax b - Ball.t0 b) + Ball.x0 b /\
  last (y_tot b) d =
    - g / 2 * (tmax b - Ball.t0 b) ^ 2
    + vr b * np_sin theta * (tmax b - Ball.t0 b) + y0.
Proof.
  intros Hn H. apply init_after in H as (a & _ & ->).
  set (self := launched g n x0 y0 v0 theta r t0 a).
  destruct (Z.to_nat (n - 1)) as [|k] eqn:E; [lia|].
  rewrite after_S.
  destruct (rebound_last (after k self) (1 + Z.of_nat k) d) as [-> ->].
  destruct (after_frame k self) as (Eg & _ & Ey & _ & Eth & _).
  unfold rebound. cbn [vr tmax Ball.t0 Ball.x0 Ball.y0 Ball.g Ball.theta].
  rewrite Eg, Ey, Eth. now split.
Qed.

Lemma init_last_sample_witness :
  match Ball.init 4 2 1 2 5 theta_345 (4 # 5) (-1) with
  | Ok b => last (x_tot b) 0 = vr b * (3 # 5) * (tmax b - t0 b) + x0 b
  | Raise _ => False
  end.
Proof.
  destruct (Ball.init 4 2 1 2 5 theta_345 (4 # 5) (-1)) as [b|e] eqn:E.
  - assert (Hn : (2 <= 2)%Z) by discriminate.
    apply (init_last_sample 4 2 1 2 5 theta_345 (4 # 5) (-1) b 0 Hn E).
  - discriminate E.
Defined.

End Construction.

(** * Playback *)

Section Playback.

Import Ball Animation.

Lemma getitem_nth {A : Type} (a : list A) (i : Z) (d : A) :
  0 <= i < Py.len a -> Py.getitem a i = Ok (nth (Z.to_nat i) a d).
Proof.
  intros H. unfold Py.getitem, Py.len in *.
  destruct (Z.ltb_spec i 0) as [L|_]; [lia|].
  destruct (Z.ltb_spec i 0) as [L|_]; [lia|].
  destruct (Z.leb_spec (Z.of_nat (length a)) i) as [L|_]; [lia|].
  cbn [orb]. destruct (nth_error a (Z.to_nat i)) as [v|] eqn:E.
  - f_equal. symmetry. now apply nth_error_nth.
  - apply nth_error_None in E. lia.
Qed.

Lemma getitem_from_end {A : Type} (a : list A) (i : Z) (d : A) :
  - Py.len a <= i < 0 ->
  Py.getitem a i = Ok (nth (Z.to_nat (i + Py.len a)) a d).
Proof.
  intros H. unfold Py.getitem, Py.len in *.
  destruct (Z.ltb_spec i 0) as [_|L]; [|lia].
  destruct (Z.ltb_spec (i + Z.of_nat (length a)) 0) as [L|_]; [lia|].
  destruct (Z.leb_spec (Z.of_nat (length a)) (i + Z.of_nat (length a)))
    as [L|_]; [lia|].
  cbn [orb].
  destruct (nth_error a (Z.to_nat (i + Z.of_nat (length a)))) as [v|] eqn:E.
  - f_equal. symmetry. now apply nth_error_nth.
  - apply nth_error_None in E. lia.
Qed.

Lemma getitem_out_of_range {A : Type} (a : list A) (i : Z) :
  i < - Py.len a \/ Py.len a <= i -> Py.getitem a i = Raise IndexError.
Proof.
  intros H. unfold Py.getitem, Py.len in *.
  destruct (Z.ltb_spec i 0) as [L|L].
  - destruct (Z.ltb_spec (i + Z.of_nat (length a)) 0) as [L'|L'];
      [reflexivity|lia].
  - destruct (Z.ltb_spec i 0) as [L'|_]; [lia|].
    destruct (Z.leb_spec (Z.of_nat (length a)) i) as [_|L']; [reflexivity|lia].
Qed.

(** An index is accepted exactly from [-len] to [len - 1]. *)
Lemma getitem_ok_iff {A : Type} (a : list A) (i : Z) :
  (exists v, Py.getitem a i = Ok v) <-> - Py.len a <= i < Py.len a.
Proof.
  split.
  - intros [v H].
    destruct (Z.lt_ge_cases i (- Py.len a)) as [L|L].
    { rewrite getitem_out_of_range in H by now left. discriminate. }
    destruct (Z.lt_ge_cases i (Py.len a)) as [L'|L']; [lia|].
    rewrite getitem_out_of_range in H by now right. discriminate.
  - intros H. destruct a as [|d a']; [unfold Py.len in H; simpl in H; lia|].
    destruct (Z.lt_ge_cases i 0).
    + rewrite (getitem_from_end _ _ d) by lia. eauto.
    + rewrite (getitem_nth _ _ d) by lia. eauto.
Qed.

Lemma arange_int_in (m tot : Z) :
  In tot (Np.arange_int 0 m) <-> 0 <= tot < m.
Proof.
  unfold Np.arange_int. rewrite in_map_iff. split.
  - intros (i & <- & Hi). apply in_seq in Hi. lia.
  - intros H. exists (Z.to_nat tot). split; [lia|]. apply in_seq. lia.
Qed.

Lemma mapM_ok {A B : Type} (f : A -> result B) (l : list A) :
  (forall a, In a l -> exists b, f a = Ok b) ->
  exists bs, mapM f l = Ok bs /\ length bs = length l.
Proof.
  induction l as [|a l IH]; intros H.
  - now exists [].
  - destruct (H a) as [b Hb]; [now left|].
    destruct IH as (bs & E & L); [intros a' Ha'; apply H; now right|].
    exists (b :: bs). cbn [mapM]. rewrite Hb, E. cbn [bind length].
    now rewrite L.
Qed.


(** The first exception met is the one the loop ends with. *)
Lemma mapM_raise {A B : Type} (f : A -> result B) (l : list A) (e : exn) :
  (forall a, In a l -> f a = Raise e) -> l <> [] -> mapM f l = Raise e.
Proof.
  intros H Hl. destruct l as [|a l]; [congruence|].
  cbn [mapM]. rewrite (H a) by now left. reflexivity.
Qed.

(** The reads of [the_animation] on an object the constructor built: every
    frame is a valid index and shows the sample of that index, and the first
    drawing raises IndexError exactly when there is no sample. *)
Theorem the_animation_reads (g : Q) (n : Z) (x0 y0 v0 : Q) (theta : angle)
    (r t0 : Q) (b : ball) (d : Q) :
  Ball.init g n x0 y0 v0 theta r t0 = Ok b ->
  (forall tot, In tot (Ball.frames b) ->
     Ball.animate b tot =
     Ok (nth (Z.to_nat tot) (x_tot b) d, nth (Z.to_nat tot) (y_tot b) d)) /\
  (x_tot b = [] <-> Ball.first_position b = Raise IndexError) /\
  (x_tot b <> [] <->
   Ball.first_position b = Ok (nth 0 (x_tot b) d, nth 0 (y_tot b) d)).
Proof.
  intros H. apply init_lengths_agree in H.
  assert (R : forall tot, 0 <= tot < Py.len (x_tot b) ->
            Ball.animate b tot =
            Ok (nth (Z.to_nat tot) (x_tot b) d,
                nth (Z.to_nat tot) (y_tot b) d)).
  { intros tot Ht. unfold Ball.animate.
    rewrite (getitem_nth _ _ d) by exact Ht. cbn [bind].
    rewrite (getitem_nth _ _ d) by (unfold Py.len in *; lia). reflexivity. }
  split; [|split].
  - intros tot Ht. apply arange_int_in in Ht. now apply R.
  - split.
    + intros E. unfold Ball.first_position. now rewrite E, getitem_empty.
    + intros E. destruct (x_tot b) as [|x xs] eqn:Ex; [reflexivity|].
      change (Ball.animate b 0 = Raise IndexError) in E.
      rewrite R in E; [discriminate|].
      unfold Py.len. simpl length. lia.
  - split.
    + intros E. apply (R 0). unfold Py.len.
      destruct (x_tot b); [congruence|simpl length; lia].
    + intros E Ex. unfold Ball.first_position in E.
      rewrite Ex, getitem_empty in E. discriminate.
Qed.

Lemma the_animation_reads_witness :
  match Ball.init 4 2 1 2 5 theta_345 (4 # 5) 0 with
  | Ok b => Ball.animate b 100 = Ok (nth 100 (x_tot b) 0%Q, nth 100 (y_tot b) 0%Q)
  | Raise _ => False
  end.
Proof.
  destruct (Ball.init 4 2 1 2 5 theta_345 (4 # 5) 0) as [b|e] eqn:E.
  - destruct (the_animation_reads _ _ _ _ _ _ _ _ b 0%Q E) as (F & _).
    apply (F 100). apply arange_int_in.
    destruct (count_from_zero 4 2 1 2 5 theta_345 (4 # 5) 0 b)
      as (_ & R); try reflexivity; try exact E; try discriminate.
    lia.
  - discriminate E.
Defined.

(** After a successful construction every listed object has [max_len]
    samples in [x_tot], and [max_len] is at least 1. *)
Lemma init_lengths (bs : list loc) (h h' : heap) (a : an_animation) :
  Animation.init bs h = Ok (a, h') ->
  bs <> [] /\ balls a = bs /\ 1 <= max_len a /\
  forall l, In l bs ->
    Py.len (x_tot (h' l)) = max_len a /\
    (length (x_tot (h l)) = length (y_tot (h l)) ->
     Py.len (y_tot (h' l)) = max_len a).
Proof.
  intros E. destruct (init_inv _ _ _ _ E) as (Hbs & -> & R).
  destruct (reset_loop_inv _ _ _ _ R) as (I1 & I2 & _).
  cbn [max_len balls].
  assert (L : forall l, In l bs ->
            Py.len (x_tot (h' l)) = longest bs h /\
            (length (x_tot (h l)) = length (y_tot (h l)) ->
             Py.len (y_tot (h' l)) = longest bs h)).
  { intros l Hl. rewrite (I2 l Hl). destruct (I1 l Hl) as (_ & _ & Hm).
    split; [now apply padded_length|].
    intros Hxy. unfold padded, Py.len in *. cbn [y_tot].
    rewrite length_app, repeat_length. lia. }
  repeat split; try assumption; try (now apply L).
  destruct bs as [|l0 bs']; [congruence|].
  destruct (I1 l0 (or_introl eq_refl)) as (Hx & _ & Hm).
  unfold Py.len in Hm. destruct (x_tot (h l0)); [congruence|].
  simpl length in Hm. lia.
Qed.

Lemma animate_in_range (bs : list loc) (h h' : heap) (a : an_animation)
    (tot : Z) :
  Animation.init bs h = Ok (a, h') ->
  (forall l, In l bs -> length (x_tot (h l)) = length (y_tot (h l))) ->
  - max_len a <= tot < max_len a ->
  exists ps, Animation.animate a h' tot = Ok ps /\ length ps = length bs.
Proof.
  intros E Hxy Ht. destruct (init_lengths _ _ _ _ E) as (_ & Hb & _ & L).
  unfold Animation.animate. rewrite Hb.
  apply mapM_ok. intros l Hl. destruct (L l Hl) as [Lx Ly].
  specialize (Ly (Hxy l Hl)). unfold Ball.animate.
  destruct (proj2 (getitem_ok_iff (x_tot (h' l)) tot)) as [x ->]; [lia|].
  destruct (proj2 (getitem_ok_iff (y_tot (h' l)) tot)) as [y ->]; [lia|].
  cbn [bind]. eauto.
Qed.

(** The reads of [launch_animation] after a successful construction over
    objects whose [x_tot] and [y_tot] agree in length: the first drawing
    succeeds, the frames are the indices below [max_len], and [animate]
    succeeds exactly for the indices from [-max_len] to [max_len - 1], with
    one position per listed ball. *)
Theorem launch_animation_reads (bs : list loc) (h h' : heap)
    (a : an_animation) :
  Animation.init bs h = Ok (a, h') ->
  (forall l, In l bs -> length (x_tot (h l)) = length (y_tot (h l))) ->
  (exists ps, Animation.first_positions a h' = Ok ps) /\
  (forall tot, In tot (Animation.frames a) <-> 0 <= tot < max_len a) /\
  (forall tot, - max_len a <= tot < max_len a <->
     exists ps, Animation.animate a h' tot = Ok ps /\
                length ps = length bs) /\
  (forall tot, tot < - max_len a \/ max_len a <= tot ->
     Animation.animate a h' tot = Raise IndexError).
Proof.
  intros E Hxy. destruct (init_lengths _ _ _ _ E) as (Hbs & Hb & H1 & L).
  assert (Ok_ : forall tot, - max_len a <= tot < max_len a ->
            exists ps, Animation.animate a h' tot = Ok ps /\
                       length ps = length bs)
    by (intros tot Ht; now apply (animate_in_range bs h)).
  assert (Bad : forall tot, tot < - max_len a \/ max_len a <= tot ->
            Animation.animate a h' tot = Raise IndexError).
  { intros tot Ht. unfold Animation.animate. rewrite Hb.
    apply mapM_raise; [|exact Hbs]. intros l Hl.
    destruct (L l Hl) as [Lx _]. unfold Ball.animate.
    rewrite getitem_out_of_range by lia. reflexivity. }
  split; [|split; [|split]].
  - destruct (Ok_ 0) as (ps & P & _); [lia|]. now exists ps.
  - intros tot. apply arange_int_in.
  - intros tot. split; [apply Ok_|].
    intros (ps & P & _).
    destruct (Z.lt_ge_cases tot (- max_len a)) as [B|B].
    { rewrite Bad in P by now left. discriminate. }
    destruct (Z.lt_ge_cases tot (max_len a)) as [B'|B']; [lia|].
    rewrite Bad in P by now right. discriminate.
  - exact Bad.
Qed.

Lemma launch_animation_reads_witness :
  match Animation.init [0; 1]%nat long_and_short with
  | Ok (a, h') =>
      exists ps, Animation.animate a h' 1 = Ok ps /\ length ps = 2%nat
  | Raise _ => False
  end.
Proof.
  destruct (Animation.init [0; 1]%nat long_and_short) as [[a h']|e] eqn:E.
  - assert (Hxy : forall l, In l [0; 1]%nat ->
              length (x_tot (long_and_short l)) =
              length (y_tot (long_and_short l)))
      by (intros l [<-|[<-|[]]]; reflexivity).
    destruct (launch_animation_reads _ _ _ _ E Hxy) as (_ & _ & R & _).
    apply R. destruct (init_inv _ _ _ _ E) as (_ & -> & _).
    split; [discriminate|reflexivity].
  - discriminate E.
Defined.

Lemma last_default {A : Type} (l : list A) (d d' : A) :
  l <> [] -> last l d = last l d'.
Proof.
  intros H. destruct (exists_last H) as (l' & z & ->).
  now rewrite !last_last.
Qed.

(** What a frame shows of one ball: the sample of that index while the ball
    had one before the padding, and its last sample from then on. *)
Theorem frame_of_ball (bs : list loc) (h h' : heap) (a : an_animation)
    (l : loc) (tot : Z) (d : Q) :
  Animation.init bs h = Ok (a, h') ->
  In l bs -> length (x_tot (h l)) = length (y_tot (h l)) ->
  0 <= tot < max_len a ->
  Ball.animate (h' l) tot =
  Ok (if tot <? Py.len (x_tot (h l))
      then (nth (Z.to_nat tot) (x_tot (h l)) d,
            nth (Z.to_nat tot) (y_tot (h l)) d)
      else (last (x_tot (h l)) d, last (y_tot (h l)) d)).
Proof.
  intros E Hl Hxy Ht.
  destruct (init_lengths _ _ _ _ E) as (_ & _ & _ & L).
  destruct (L l Hl) as [Lx Ly]. specialize (Ly Hxy).
  destruct (init_inv _ _ _ _ E) as (_ & Ea & R).
  destruct (reset_loop_inv _ _ _ _ R) as (I1 & I2 & _).
  destruct (I1 l Hl) as (Nx & Ny & _).
  unfold Ball.animate.
  rewrite (getitem_nth _ _ d) by lia. cbn [bind].
  rewrite (getitem_nth _ _ d) by lia. cbn [bind].
  rewrite (I2 l Hl). unfold padded. cbn [x_tot y_tot].
  unfold Py.len in *.
  destruct (Z.ltb_spec tot (Z.of_nat (length (x_tot (h l))))) as [B|B].
  - now rewrite !app_nth1 by lia.
  - rewrite !app_nth2 by lia.
    rewrite !nth_repeat_lt; [|subst a; cbn [max_len] in *; lia..].
    now rewrite (last_default _ 0%Q d Nx), (last_default _ 0%Q d Ny).
Qed.

Lemma frame_of_ball_witness :
  match Animation.init [0; 1]%nat long_and_short with
  | Ok (a, h') => Ball.animate (h' 1%nat) 1 = Ok (5, 6)%Q
  | Raise _ => False
  end.
Proof.
  destruct (Animation.init [0; 1]%nat long_and_short) as [[a h']|e] eqn:E.
  - refine (frame_of_ball _ _ _ _ 1%nat 1 0%Q E _ eq_refl _).
    + simpl. tauto.
    + destruct (init_inv _ _ _ _ E) as (_ & -> & _).
      split; [discriminate|reflexivity].
  - discriminate E.
Defined.

End Playback.

(** * Sharing objects between animations *)

Section Sharing.

Import Ball Animation.

Lemma longest_le (bs bs' : list loc) (h : heap) :
  (forall l, In l bs -> In l bs') -> longest bs h <= longest bs' h.
Proof.
  intros H. unfold longest. apply inj_le. apply list_max_le.
  apply Forall_forall. intros k Hk.
  apply in_map_iff in Hk as (l & <- & Hl).
  pose proof (list_max_bound bs' h l (H l Hl)) as B.
  unfold Py.len, longest in B. lia.
Qed.

(** The order of the list and the repetitions in it make no difference: two
    lists that name the same objects give the same [max_len] and leave the
    same heap. *)
Theorem init_same_objects (bs bs' : list loc) (h h' : heap)
    (a : an_animation) :
  Animation.init bs h = Ok (a, h') ->
  (forall l, In l bs <-> In l bs') ->
  exists h'', Animation.init bs' h = Ok (Animation.Build bs' (max_len a), h'')
              /\ forall l, h'' l = h' l.
Proof.
  intros E S. destruct (init_inv _ _ _ _ E) as (Hbs & -> & R).
  destruct (reset_loop_inv _ _ _ _ R) as (I1 & I2 & I3).
  assert (M : longest bs' h = longest bs h).
  { apply Z.le_antisymm; apply longest_le; intros l; apply S. }
  assert (Hbs' : bs' <> []).
  { destruct bs as [|l0 bs0]; [congruence|]. intros ->.
    apply (proj1 (S l0)). now left. }
  destruct (init_paddable bs' h Hbs') as [h'' E'].
  { intros l Hl. destruct (I1 l (proj2 (S l) Hl)) as (Hx & Hy & _).
    now split. }
  exists h''. cbn [max_len]. rewrite <- M. split; [exact E'|].
  destruct (init_inv _ _ _ _ E') as (_ & _ & R').
  destruct (reset_loop_inv _ _ _ _ R') as (_ & J2 & J3).
  intros l. destruct (in_dec Nat.eq_dec l bs) as [Hl|Hl].
  - rewrite (I2 l Hl), (J2 l (proj1 (S l) Hl)). now rewrite M.
  - rewrite (I3 l Hl). apply J3. intros Hl'. apply Hl. now apply S.
Qed.

Lemma init_same_objects_witness :
  match Animation.init [0; 1]%nat long_and_short with
  | Ok (a, h') =>
      exists h'', Animation.init [1; 0; 1]%nat long_and_short =
                  Ok (Animation.Build [1; 0; 1]%nat (max_len a), h'') /\
                  forall l, h'' l = h' l
  | Raise _ => False
  end.
Proof.
  destruct (Animation.init [0; 1]%nat long_and_short) as [[a h']|e] eqn:E.
  - apply (init_same_objects _ _ _ _ _ E). intros l. simpl. tauto.
  - discriminate E.
Defined.

Lemma reset_loop_too_long (m : Z) (ls : list loc) (h : heap) :
  (forall l, In l ls -> x_tot (h l) <> [] /\ y_tot (h l) <> []) ->
  (exists l, In l ls /\ m < Py.len (x_tot (h l))) ->
  reset_loop m ls h = Raise ValueError.
Proof.
  revert h. induction ls as [|l0 ls IH]; intros h Hne (l & Hl & Hlong).
  - destruct Hl.
  - cbn [reset_loop]. destruct (Hne l0) as [Hx Hy]; [now left|].
    destruct (Z.lt_ge_cases m (Py.len (x_tot (h l0)))) as [B|B].
    { now rewrite pad_too_long. }
    assert (P0 : paddable m (h l0)) by (repeat split; [exact Hx|exact Hy|lia]).
    rewrite (pad_paddable _ _ P0). cbn [bind].
    assert (N : l <> l0) by (intros ->; lia).
    apply IH.
    + intros l' Hl'. destruct (Nat.eq_dec l' l0) as [->|N'].
      * rewrite store_same.
        destruct (padded_paddable _ _ P0) as (Px & Py' & _). now split.
      * rewrite store_other by exact N'. apply Hne. now right.
    + exists l. rewrite store_other by exact N.
      split; [|exact Hlong]. destruct Hl as [->|Hl]; [congruence|exact Hl].
Qed.

(** An object listed in two animations is padded in place by the second
    one: when that one has the larger [max_len], the object is then longer
    than the first animation's [max_len], and [reset_time] on the first
    animation raises ValueError. *)
Theorem reset_time_after_sharing (bs1 bs2 : list loc) (h h1 h2 : heap)
    (a1 a2 : an_animation) (l : loc) :
  Animation.init bs1 h = Ok (a1, h1) ->
  Animation.init bs2 h1 = Ok (a2, h2) ->
  In l bs1 -> In l bs2 -> max_len a1 < max_len a2 ->
  Py.len (x_tot (h1 l)) = max_len a1 /\
  Py.len (x_tot (h2 l)) = max_len a2 /\
  reset_time a1 h2 = Raise ValueError.
Proof.
  intros E1 E2 L1 L2 Hlt.
  destruct (init_lengths _ _ _ _ E1) as (_ & B1 & _ & Len1).
  destruct (init_lengths _ _ _ _ E2) as (_ & _ & _ & Len2).
  destruct (Len1 l L1) as [X1 _]. destruct (Len2 l L2) as [X2 _].
  split; [exact X1|]. split; [exact X2|].
  unfold reset_time. rewrite B1. apply reset_loop_too_long.
  - intros l' Hl'.
    destruct (init_inv _ _ _ _ E1) as (_ & _ & R1).
    destruct (reset_loop_inv _ _ _ _ R1) as (I1 & I2 & _).
    destruct (padded_paddable _ _ (I1 l' Hl')) as (Px & Py' & _).
    rewrite <- (I2 l' Hl') in Px, Py'.
    destruct (init_inv _ _ _ _ E2) as (_ & _ & R2).
    destruct (reset_loop_inv _ _ _ _ R2) as (J1 & J2 & J3).
    destruct (in_dec Nat.eq_dec l' bs2) as [Hin|Hin].
    + rewrite (J2 l' Hin).
      destruct (padded_paddable _ _ (J1 l' Hin)) as (Qx & Qy & _).
      now split.
    + rewrite (J3 l' Hin). now split.
  - exists l. split; [exact L1|]. lia.
Qed.

Lemma reset_time_after_sharing_witness :
  match Animation.init [1]%nat long_and_short with
  | Ok (a1, h1) =>
      match Animation.init [0; 1]%nat h1 with
      | Ok (a2, h2) => reset_time a1 h2 = Raise ValueError
      | Raise _ => False
      end
  | Raise _ => False
  end.
Proof.
  destruct (Animation.init [1]%nat long_and_short) as [[a1 h1]|e] eqn:E1;
    [|discriminate E1].
  destruct (Animation.init [0; 1]%nat h1) as [[a2 h2]|e] eqn:E2.
  - apply (reset_time_after_sharing _ _ _ _ _ _ _ 1%nat E1 E2);
      [simpl; tauto|simpl; tauto|].
    destruct (init_inv _ _ _ _ E2) as (_ & -> & _).
    destruct (init_inv _ _ _ _ E1) as (_ & -> & R1).
    injection E1 as <-. reflexivity.
  - injection E1 as <- <-. discriminate E2.
Defined.

End Sharing.

(** * The example driver *)

Section Driver.

Import Ball Animation.
Local Open Scope Q_scope.




End Driver.
